(** * find-unlinked-assets: the scanner of [find-unlinked-assets.mjs]

    A shallow embedding of the script that pages through the assets of a
    Contentful space, asks for every asset whether an entry links to it,
    and reports the assets nobody links to.

    Conventions of the embedding.
    - JavaScript values that come out of the delivery API are JSON values;
      [JsVal] has the cases the script can meet (no arrays, no functions).
    - Numbers are [NaN] or an integer: byte counts, totals and offsets are
      integers, and every integer below 2^53 is a double.  The quotient
      [bytes / 1024^i] is kept as an exact fraction, which is what the
      double division by a power of two computes.
    - [Math.log] is the engine's: ECMAScript asks for an approximation of
      the natural logarithm and no more, so the double it returns is a
      function of the host.  The division of the two logarithms and
      [Math.floor] are IEEE 754 operations and are computed here as the
      standard prescribes, rounding to the nearest double.
    - The Contentful client, the file system, the clock and the locale are
      the host: a record of functions over an abstract world.
    - Console lines are recorded without the chalk styling. *)

From stdpp Require Import base option list strings gmap pretty.
From Stdlib Require Import ZArith QArith Lia Ascii.

Set Warnings "-register-all".
Local Open Scope Z_scope.

(** ** JavaScript values *)

Module Js.

Inductive Number :=
| NaN
| Num (z : Z).

Inductive JsVal :=
| JUndefined
| JNull
| JBool (b : bool)
| JNum (n : Number)
| JStr (s : string)
| JObj (props : gmap string JsVal).

Definition is_empty (s : string) : bool :=
  match s with EmptyString => true | String _ _ => false end.

(** ToBoolean. *)
Definition truthy (v : JsVal) : bool :=
  match v with
  | JUndefined | JNull => false
  | JBool b => b
  | JNum NaN => false
  | JNum (Num z) => negb (z =? 0)
  | JStr s => negb (is_empty s)
  | JObj _ => true
  end.

(** [a || b] *)
Definition or (a b : JsVal) : JsVal := if truthy a then a else b.

(** [v?.[k]] and [v?.k], for a key that no primitive wrapper prototype
    defines: "en-US", "details", "size", "url", "contentType". *)
Definition opt_get (v : JsVal) (k : string) : JsVal :=
  match v with
  | JObj props => default JUndefined (props !! k)
  | _ => JUndefined
  end.

(** ToNumber; the numeric value of a string is the host's. *)
Definition ToNumber (StringToNumber : string → Number) (v : JsVal) : Number :=
  match v with
  | JUndefined => NaN
  | JNull => Num 0
  | JBool b => Num (if b then 1 else 0)
  | JNum n => n
  | JStr s => StringToNumber s
  | JObj _ => NaN
  end.

Definition isNaN (StringToNumber : string → Number) (v : JsVal) : bool :=
  match ToNumber StringToNumber v with NaN => true | Num _ => false end.

(** [v === 0] *)
Definition strict_eq_zero (v : JsVal) : bool :=
  match v with JNum (Num z) => z =? 0 | _ => false end.

(** A value inside a template literal. *)
Definition template (v : JsVal) : string :=
  match v with
  | JUndefined => "undefined"
  | JNull => "null"
  | JBool b => if b then "true" else "false"
  | JNum NaN => "NaN"
  | JNum (Num z) => pretty z
  | JStr s => s
  | JObj _ => "[object Object]"
  end.

(** [`${xs[i]}`] for an array of strings. *)
Definition template_elem (o : option string) : string :=
  default "undefined" o.

(** [xs[i]]: a property that is not an index of the array is undefined. *)
Definition index (xs : list string) (i : Number) : option string :=
  match i with
  | NaN => None
  | Num k => if k <? 0 then None else xs !! Z.to_nat k
  end.

(** *** Doubles

    A positive double is the fraction [n / d] it stands for.  The quotient
    of two doubles is the double nearest to the exact quotient, the one
    with the even significand on a tie (IEEE 754, round to nearest).  The
    quotients of the script are quotients of logarithms of byte counts:
    they lie in the normal range, where a double is [m * 2^g] with a
    significand [2^52 ≤ m < 2^53]; a significand that rounds up to 2^53
    is the next power of two. *)


(** The binary exponent of [n / d]: the [e] with [2^e ≤ n / d < 2^(e+1)],
    for positive [n] and [d]. *)
Definition ilog2 (n d : Z) : Z :=
  let e := Z.log2 n - Z.log2 d in
  if d * 2 ^ Z.max e 0 <=? n * 2 ^ Z.max (- e) 0 then e else e - 1.

(** The integer nearest to [a / b], [0 < b]; the even one on a tie. *)
Definition nearest_even (a b : Z) : Z :=
  let f := a / b in
  match 2 * (a mod b) ?= b with
  | Lt => f
  | Gt => f + 1
  | Eq => if Z.even f then f else f + 1
  end.

(** [x / y] for two positive doubles: the pair [(m, g)] is the double
    [m * 2^g].  The exact quotient lies in [[2^e, 2^(e+1))], where the
    doubles are the multiples of [2^(e-52)]. *)
Definition double_div (x y : positive * positive) : Z * Z :=
  let n := Z.pos x.1 * Z.pos y.2 in
  let d := Z.pos x.2 * Z.pos y.1 in
  let g := ilog2 n d - 52 in
  (nearest_even (n * 2 ^ Z.max (- g) 0) (d * 2 ^ Z.max g 0), g).

(** [Math.floor] of the double [m * 2^g], [0 ≤ m]: a shift to the left by
    a negative count is a shift to the right. *)
Definition double_floor (q : Z * Z) : Z := Z.shiftl q.1 q.2.

(** [parseInt(Math.floor(Math.log(x) / Math.log(1024)), 10)] for an integer
    [x].  The logarithm of a negative number is NaN and that of zero is
    -Infinity; [parseInt] reads both back as NaN.  [Math.log(1)] is +0 in
    every engine (ECMAScript fixes this value), and so are its quotient
    and the floor.  From 2 on the logarithm is the positive double
    [Math_log x] of the engine, the quotient by [Math_log 1024] is rounded
    to a double and floored.  [parseInt] writes the floor in decimal digits
    and reads the same integer back: the floor is far below 10^21, where
    the digits are written out in full, the logarithm of a double being
    below 710 and that of 1024 above 6.9.  The theorems about the
    magnitude are stated for the engines whose quotient is below 1024. *)
Definition floor_log1024 (Math_log : Z → positive * positive)
    (x : Number) : Number :=
  match x with
  | NaN => NaN
  | Num b =>
      if b <? 1 then NaN
      else if b =? 1 then Num 0
      else Num (double_floor (double_div (Math_log b) (Math_log 1024)))
  end.


(** [Number.prototype.toFixed(2)] of the fraction [num / den], [0 < den]:
    the integer [n] with [n / 100] nearest to the fraction, the larger one
    on a tie, written with the point before its last two digits. *)
Definition nearest_hundredth (num den : Z) : Z :=
  (200 * num + den) / (2 * den).

Definition pad3 (m : string) : string :=
  match String.length m with
  | 0%nat => "000"
  | 1%nat => "00" +:+ m
  | 2%nat => "0" +:+ m
  | _ => m
  end.

Definition toFixed2 (num den : Z) : string :=
  let sign := if num <? 0 then "-" else "" in
  let m := pad3 (pretty (nearest_hundredth (Z.abs num) den)) in
  let k := String.length m in
  sign +:+ String.substring 0 (k - 2) m +:+ "." +:+ String.substring (k - 2) 2 m.

(** [(x / Math.pow(1024, i)).toFixed(2)] *)
Definition div_pow1024_toFixed2 (x i : Number) : string :=
  match x, i with
  | Num b, Num k => if k <? 0 then toFixed2 (b * 1024 ^ (- k)) 1
                    else toFixed2 b (1024 ^ k)
  | _, _ => "NaN"
  end.

End Js.

Import Js.

(** ** The helpers of the script *)

(** [getContentfulWebAppUrl(spaceId, assetId, environmentId = "master")];
    [None] is an argument that is undefined. *)
Definition getContentfulWebAppUrl
    (spaceId : option string) (assetId : string)
    (environmentId : option string) : string :=
  let environmentId := default "master" environmentId in
  "https://app.contentful.com/spaces/" +:+ template_elem spaceId
    +:+ "/environments/" +:+ environmentId
    +:+ "/assets/" +:+ assetId.

Definition sizes : list string := ["Bytes"; "KB"; "MB"; "GB"; "TB"].

Definition formatFileSize (StringToNumber : string → Number)
    (Math_log : Z → positive * positive) (bytes : JsVal) : string :=
  if negb (truthy bytes) || isNaN StringToNumber bytes then "Unknown"
  else if strict_eq_zero bytes then "0 Bytes"
  else
    let i := floor_log1024 Math_log (ToNumber StringToNumber bytes) in
    div_pow1024_toFixed2 (ToNumber StringToNumber bytes) i
      +:+ " " +:+ template_elem (index sizes i).

(** ** Data of the run *)

(** An asset as the delivery API returns it: [asset.sys.id],
    [asset.sys.createdAt], [asset.sys.updatedAt], [asset.fields.title],
    [asset.fields.file]. *)
Record Asset := {
  sys_id : string;
  sys_createdAt : JsVal;
  sys_updatedAt : JsVal;
  fields_title : JsVal;
  fields_file : JsVal;
}.

(** The object pushed on [unlinkedAssets]. *)
Module Report.
Record Entry := {
  id : string;
  title : JsVal;
  url : JsVal;
  contentType : JsVal;
  fileSize : string;
  createdAt : string;
  updatedAt : string;
  contentfulUrl : string;
}.
End Report.

(** [process.env], destructured on line 10. *)
Record Env := {
  SPACE_ID : option string;
  ENVIRONMENT : option string;
  ACCESS_TOKEN : option string;
}.

(** [!v] and [v || d] for a variable of the environment, which is a string
    or undefined. *)
Definition env_truthy (v : option string) : bool :=
  match v with Some s => negb (is_empty s) | None => false end.

Definition env_or (v : option string) (d : string) : string :=
  match v with
  | Some s => if is_empty s then d else s
  | None => d
  end.

(** The argument of [createClient]. *)
Record ClientConfig := {
  space : option string;
  environment : string;
  accessToken : option string;
}.

Inductive Res (A : Type) :=
| Ok (a : A)
| Throw (message : string).
Arguments Ok {A} a.
Arguments Throw {A} message.

(** What the run does to the outside, in order. *)
Inductive Event :=
| ConsoleLog (line : string)
| ConsoleError (line : string)
| GetAssets (skip limit : nat) (order : string) (response : Res (list Asset))
| GetEntries (links_to_asset : string) (limit : nat) (response : Res Z)
| WriteFile (filename : string) (data : list Report.Entry)
           (response : Res unit).

(** The host: the Contentful client, the file system, the clock, the
    locale, and the string-to-number conversion and the logarithm of the
    engine.  [Math_log x] is the double [Math.log(x)] for an integer [x]
    from 2 on. *)
Record Host := {
  World : Type;
  StringToNumber : string → Number;
  Math_log : Z → positive * positive;
  toLocaleDateString : JsVal → string;
  client_getAssets :
    ClientConfig → World → nat → nat → string → World * Res (list Asset);
  client_getEntries :
    ClientConfig → World → string → nat → World * Res Z;
  now_toISOString : World → string;
  fs_writeFile :
    World → string → list Report.Entry → World * Res unit;
}.

(** The frame of [findUnlinkedAssets] together with the world and the
    events so far. *)
Record St (H : Host) := {
  world : World H;
  trace : list Event;
  unlinkedAssets : list Report.Entry;
  skip : nat;
  hasMoreAssets : bool;
}.
Arguments world {H} _.
Arguments trace {H} _.
Arguments unlinkedAssets {H} _.
Arguments skip {H} _.
Arguments hasMoreAssets {H} _.

(** How a run of the whole script ends. *)
Record Outcome := {
  events : list Event;
  exitCode : Z;
}.

(** ** State and exceptions *)

Definition M (H : Host) (A : Type) : Type := St H → St H * Res A.

#[global] Instance M_ret (H : Host) : MRet (M H) :=
  λ A a s, (s, Ok a).

#[global] Instance M_bind (H : Host) : MBind (M H) :=
  λ A B f m s,
    match m s with
    | (s', Ok a) => f a s'
    | (s', Throw e) => (s', Throw e)
    end.

(** [try { m } catch (error) { handler(error.message) }]: the state the
    block reached when it threw is the state the handler starts from. *)
Definition try_catch {H : Host} (m : M H unit) (handler : string → M H unit)
    : M H unit :=
  λ s,
    match m s with
    | (s', Ok a) => (s', Ok a)
    | (s', Throw e) => handler e s'
    end.

(** [for (const x of xs) { f(x) }] *)
Fixpoint for_of {H : Host} {A : Type} (xs : list A) (f : A → M H unit)
    : M H unit :=
  match xs with
  | [] => mret tt
  | x :: xs' => f x ;; for_of xs' f
  end.

(** [while (cond) { body }]; [None] when the fuel runs out. *)
Fixpoint while {H : Host} (fuel : nat) (cond : St H → bool) (body : M H unit)
    (s : St H) : option (St H * Res unit) :=
  match fuel with
  | O => None
  | S fuel' =>
      if cond s then
        match body s with
        | (s', Ok _) => while fuel' cond body s'
        | (s', Throw e) => Some (s', Throw e)
        end
      else Some (s, Ok tt)
  end.

Section Script.
Context (H : Host).

Definition emit (e : Event) : M H unit :=
  λ s, ({| world := world s; trace := trace s ++ [e];
           unlinkedAssets := unlinkedAssets s; skip := skip s;
           hasMoreAssets := hasMoreAssets s |}, Ok tt).

Definition console_log (line : string) : M H unit := emit (ConsoleLog line).
Definition console_error (line : string) : M H unit :=
  emit (ConsoleError line).

Definition get_skip : M H nat := λ s, (s, Ok (skip s)).

Definition set_skip (n : nat) : M H unit :=
  λ s, ({| world := world s; trace := trace s;
           unlinkedAssets := unlinkedAssets s; skip := n;
           hasMoreAssets := hasMoreAssets s |}, Ok tt).

Definition set_hasMoreAssets (b : bool) : M H unit :=
  λ s, ({| world := world s; trace := trace s;
           unlinkedAssets := unlinkedAssets s; skip := skip s;
           hasMoreAssets := b |}, Ok tt).

(** [unlinkedAssets.push(e)] *)
Definition push (e : Report.Entry) : M H unit :=
  λ s, ({| world := world s; trace := trace s;
           unlinkedAssets := unlinkedAssets s ++ [e]; skip := skip s;
           hasMoreAssets := hasMoreAssets s |}, Ok tt).

(** [await client.getAssets({ skip, limit, order })], giving
    [assetsResponse.items]. *)
Definition getAssets (client : ClientConfig) (skip' limit' : nat)
    (order : string) : M H (list Asset) :=
  λ s,
    let '(w, r) := client_getAssets H client (world s) skip' limit' order in
    ({| world := w; trace := trace s ++ [GetAssets skip' limit' order r];
        unlinkedAssets := unlinkedAssets s; skip := skip s;
        hasMoreAssets := hasMoreAssets s |}, r).

(** [await client.getEntries({ links_to_asset, limit })], giving
    [linkedEntries.total]. *)
Definition getEntries (client : ClientConfig) (links_to_asset : string)
    (limit : nat) : M H Z :=
  λ s,
    let '(w, r) := client_getEntries H client (world s) links_to_asset limit in
    ({| world := w; trace := trace s ++ [GetEntries links_to_asset limit r];
        unlinkedAssets := unlinkedAssets s; skip := skip s;
        hasMoreAssets := hasMoreAssets s |}, r).

(** [await fs.writeFile(filename, JSON.stringify(data, null, 2))] *)
Definition writeFile (filename : string) (data : list Report.Entry)
    : M H unit :=
  λ s,
    let '(w, r) := fs_writeFile H (world s) filename data in
    ({| world := w; trace := trace s ++ [WriteFile filename data r];
        unlinkedAssets := unlinkedAssets s; skip := skip s;
        hasMoreAssets := hasMoreAssets s |}, r).

Definition now : M H string := λ s, (s, Ok (now_toISOString H (world s))).

End Script.

(** ** The script *)

(** [timestamp.replace(/:/g, "-")] *)
Fixpoint replace_colons (s : string) : string :=
  match s with
  | EmptyString => EmptyString
  | String c s' =>
      String (if Ascii.eqb c ":" then "-"%char else c) (replace_colons s')
  end.

(** [timestamp.replace(/\..+/, "")] on one line of text, as [toISOString]
    gives: everything from the first dot that has a character after it is
    dropped. *)
Fixpoint strip_fraction (s : string) : string :=
  match s with
  | EmptyString => EmptyString
  | String c s' =>
      if Ascii.eqb c "." && negb (is_empty s') then EmptyString
      else String c (strip_fraction s')
  end.

(** [s.repeat(n)] *)
Fixpoint repeat_string (n : nat) (s : string) : string :=
  match n with
  | O => EmptyString
  | S n' => s +:+ repeat_string n' s
  end.

Definition rule : string := repeat_string 80 "─".

(** The page size: [const limit = 100]. *)
Definition limit : nat := 100.

Section Run.
Context (H : Host) (env : Env).

(** [createClient({ space, environment, accessToken })] *)
Definition client : ClientConfig :=
  {| space := SPACE_ID env;
     environment := env_or (ENVIRONMENT env) "master";
     accessToken := ACCESS_TOKEN env |}.

(** Lines 84-105: the entry of an asset that no entry links to. *)
Definition reportEntry (asset : Asset) : Report.Entry :=
  let assetId := sys_id asset in
  let assetTitle :=
    Js.or (Js.or (opt_get (fields_title asset) "en-US") (fields_title asset))
          (JStr "Untitled") in
  let contentfulUrl :=
    getContentfulWebAppUrl (SPACE_ID env) assetId
      (Some (env_or (ENVIRONMENT env) "master")) in
  let fileDetails :=
    Js.or (opt_get (fields_file asset) "en-US") (fields_file asset) in
  let fileSize := opt_get (opt_get fileDetails "details") "size" in
  {| Report.id := assetId;
     Report.title := assetTitle;
     Report.url := Js.or (opt_get fileDetails "url") (JStr "No URL");
     Report.contentType :=
       Js.or (opt_get fileDetails "contentType") (JStr "Unknown");
     Report.fileSize :=
       if truthy fileSize
       then formatFileSize (StringToNumber H) (Math_log H) fileSize
       else "Unknown";
     Report.createdAt := toLocaleDateString H (sys_createdAt asset);
     Report.updatedAt := toLocaleDateString H (sys_updatedAt asset);
     Report.contentfulUrl := contentfulUrl |}.

(** Lines 73-114: the body of the loop over a batch. *)
Definition checkAsset (asset : Asset) : M H unit :=
  let assetId := sys_id asset in
  total ← getEntries H client assetId 1;
  if total =? 0 then
    let entry := reportEntry asset in
    push H entry ;;
    console_log H ("✓ Found unlinked asset: " +:+ template (Report.title entry))
  else mret tt.

(** Lines 55-122: the [try] block. *)
Definition fetchBatch : M H unit :=
  skip ← get_skip H;
  console_log H ("Fetching assets (skip: " +:+ pretty skip +:+ ", limit: "
                 +:+ pretty limit +:+ ")...") ;;
  assets ← getAssets H client skip limit "sys.createdAt";
  if (length assets =? 0)%nat then set_hasMoreAssets H false
  else
    for_of assets checkAsset ;;
    set_skip H (skip + limit)%nat ;;
    if (length assets <? limit)%nat then set_hasMoreAssets H false
    else mret tt.

(** Lines 123-129: the [catch] block. *)
Definition onError (message : string) : M H unit :=
  console_error H ("Error fetching or processing assets: " +:+ message) ;;
  set_hasMoreAssets H false.

(** One turn of [while (hasMoreAssets)]. *)
Definition iteration : M H unit := try_catch fetchBatch onError.

(** The frame on entry: [unlinkedAssets = []], [skip = 0],
    [hasMoreAssets = true]. *)
Definition enter (w : World H) (tr : list Event) : St H :=
  {| world := w; trace := tr; unlinkedAssets := []; skip := 0%nat;
     hasMoreAssets := true |}.

Definition findUnlinkedAssets (fuel : nat) (w : World H) (tr : list Event)
    : option (St H * Res (list Report.Entry)) :=
  let s := enter w (tr ++ [ConsoleLog "⏳ Starting to scan for unlinked assets..."]) in
  match while fuel hasMoreAssets iteration s with
  | None => None
  | Some (s', Ok _) => Some (s', Ok (unlinkedAssets s'))
  | Some (s', Throw e) => Some (s', Throw e)
  end.

(** Lines 172-184: the lines of one entry of the summary. *)
Definition summaryLines (count index : nat) (asset : Report.Entry)
    : list string :=
  [ pretty (index + 1)%nat +:+ ". " +:+ template (Report.title asset);
    "   ID: " +:+ Report.id asset;
    "   Type: " +:+ template (Report.contentType asset);
    "   Size: " +:+ Report.fileSize asset;
    "   Created: " +:+ Report.createdAt asset;
    "   URL: " +:+ Report.contentfulUrl asset ]
  ++ (if (index <? count - 1)%nat then [rule] else []).

(** Lines 156-197: the summary on the console. *)
Definition printSummary (filename : string)
    (unlinkedAssets : list Report.Entry) : M H unit :=
  console_log H "" ;;
  console_log H ("✅ Found " +:+ pretty (length unlinkedAssets)
                 +:+ " unlinked assets.") ;;
  console_log H ("💾 Report saved to " +:+ filename) ;;
  console_log H "" ;;
  if (0 <? length unlinkedAssets)%nat then
    console_log H "📋 Unlinked Assets Summary:" ;;
    console_log H rule ;;
    for_of (mjoin (imap (summaryLines (length unlinkedAssets)) unlinkedAssets))
           (console_log H) ;;
    console_log H rule ;;
    console_log H "" ;;
    console_log H "Note: Click on the URLs to open assets in Contentful"
  else
    console_log H "👍 No unlinked assets found. Your content is well-organized!".

(** Lines 147-154: the report, then the summary. *)
Definition report (unlinkedAssets : list Report.Entry) : M H unit :=
  iso ← now H;
  let timestamp := strip_fraction (replace_colons iso) in
  let filename := "unlinked-assets-" +:+ timestamp +:+ ".json" in
  writeFile H filename unlinkedAssets ;;
  printSummary filename unlinkedAssets.

Definition banner : list Event :=
  [ ConsoleLog "🔍 Searching for unlinked assets in Contentful space...";
    ConsoleLog ("Space ID: " +:+ template_elem (SPACE_ID env));
    ConsoleLog ("Environment: " +:+ env_or (ENVIRONMENT env) "master");
    ConsoleLog "" ].

(** [main]: an exception that reaches its [catch] is printed (here by its
    message) and the process exits with 1; otherwise the process ends
    with 0. *)
Definition main (fuel : nat) (w : World H) : option Outcome :=
  match findUnlinkedAssets fuel w banner with
  | None => None
  | Some (s, r) =>
      let '(s', r') :=
        match r with
        | Ok unlinkedAssets => report unlinkedAssets s
        | Throw e => (s, Throw e)
        end in
      match r' with
      | Ok _ => Some {| events := trace s'; exitCode := 0 |}
      | Throw e =>
          Some {| events :=
                    trace s' ++ [ConsoleError ("❌ Error running the script: " +:+ e)];
                  exitCode := 1 |}
      end
  end.

(** Lines 13-20 and 204: validation, then [main()]. *)
Definition script (fuel : nat) (w : World H) : option Outcome :=
  if negb (env_truthy (SPACE_ID env)) || negb (env_truthy (ACCESS_TOKEN env))
  then
    Some {| events :=
              [ConsoleError "Missing required environment variables. Please check your .env file."];
            exitCode := 1 |}
  else main fuel w.

End Run.

(** ** What a trace says about the client *)

(** The calls of the client, without the console lines and the file. *)
Definition isClientCall (e : Event) : bool :=
  match e with
  | GetAssets _ _ _ _ | GetEntries _ _ _ => true
  | _ => false
  end.

Definition clientCalls (tr : list Event) : list Event :=
  List.filter isClientCall tr.

(** The listing requests [(skip, limit, order)], in order. *)
Definition assetRequests (tr : list Event) : list (nat * nat * string) :=
  omap (λ e, match e with
             | GetAssets s l o _ => Some (s, l, o)
             | _ => None
             end) tr.

(** The pages the listing returned, in order. *)
Definition pagesFetched (tr : list Event) : list (list Asset) :=
  omap (λ e, match e with
             | GetAssets _ _ _ (Ok items) => Some items
             | _ => None
             end) tr.

(** The reference checks [(asset id, limit, total)] that were answered. *)
Definition referenceChecks (tr : list Event) : list (string * nat * Z) :=
  omap (λ e, match e with
             | GetEntries a l (Ok total) => Some (a, l, total)
             | _ => None
             end) tr.

(** The files written [(filename, data)], in order. *)
Definition reportsWritten (tr : list Event)
    : list (string * list Report.Entry) :=
  omap (λ e, match e with
             | WriteFile filename data _ => Some (filename, data)
             | _ => None
             end) tr.

(** The lines on the console, in order. *)
Definition consoleLines (tr : list Event) : list string :=
  omap (λ e, match e with
             | ConsoleLog line | ConsoleError line => Some line
             | _ => None
             end) tr.

(** The client serves a repository that does not change and does not fail:
    the listing in creation order is [repo], cut as asked, and the number of
    entries linking to an asset is [refs] of its identifier. *)
Definition fixedRepository (H : Host) (repo : list Asset) (refs : string → Z)
    : Prop :=
  (∀ c w skip limit,
     (client_getAssets H c w skip limit "sys.createdAt").2
     = Ok (take limit (drop skip repo)))
  ∧ (∀ c w a, (client_getEntries H c w a 1).2 = Ok (refs a)).

(** The assets no entry links to. *)
Definition unlinked (refs : string → Z) (assets : list Asset) : list Asset :=
  List.filter (λ a, refs (sys_id a) =? 0) assets.

(** The calls one batch makes on a fixed repository. *)
Definition checkCall (refs : string → Z) (a : Asset) : Event :=
  GetEntries (sys_id a) 1 (Ok (refs (sys_id a))).

Definition batchCalls (repo : list Asset) (refs : string → Z) (skip : nat)
    : list Event :=
  let page := take limit (drop skip repo) in
  GetAssets skip limit "sys.createdAt" (Ok page) :: map (checkCall refs) page.

(** ** Words for the proofs *)

(** The state in which the checks of a page start. *)
Definition afterListing {H : Host} (s : St H) (w : World H)
    (r : Res (list Asset)) : St H :=
  {| world := w;
     trace := trace s
              ++ [ConsoleLog ("Fetching assets (skip: " +:+ pretty (skip s)
                              +:+ ", limit: " +:+ pretty limit +:+ ")...")]
              ++ [GetAssets (skip s) limit "sys.createdAt" r];
     unlinkedAssets := unlinkedAssets s; skip := skip s;
     hasMoreAssets := hasMoreAssets s |}.

(** The [j]-th page of [P] elements of a list. *)
Definition pageAt {A : Type} (l : list A) (P j : nat) : list A :=
  take P (drop (P * j) l).

(** The reference checks that were answered, and the assets among them
    that no entry links to. *)
Definition answeredCalls (checked : list Asset) (totals : list Z)
    : list Event :=
  zip_with (λ a total, GetEntries (sys_id a) 1 (Ok total)) checked totals.

Definition answeredZero (checked : list Asset) (totals : list Z)
    : list Asset :=
  (List.filter (λ p, p.2 =? 0) (zip checked totals)).*1.

(** [total] is an answer of the client to the reference check of [a]. *)
Definition answeredBy (H : Host) (c : ClientConfig) (a : Asset) (total : Z)
    : Prop :=
  ∃ w, (client_getEntries H c w (sys_id a) 1).2 = Ok total.

(** What the client answers agrees with a repository that does not change;
    a call may still raise. *)
Definition servesRepository (H : Host) (repo : list Asset)
    (refs : string → Z) : Prop :=
  (∀ c w skip limit page,
     (client_getAssets H c w skip limit "sys.createdAt").2 = Ok page →
     page = take limit (drop skip repo))
  ∧ (∀ c w a total,
       (client_getEntries H c w a 1).2 = Ok total → total = refs a).

(** The record of a reference check on a fixed repository. *)
Definition checkOf (refs : string → Z) (a : Asset) : string * nat * Z :=
  (sys_id a, 1%nat, refs (sys_id a)).

(** A computation that prints console lines and does nothing else. *)
Definition logsOnly {H : Host} (m : M H unit) : Prop :=
  ∀ s, ∃ s1 lines,
    m s = (s1, Ok tt) ∧ world s1 = world s
    ∧ trace s1 = trace s ++ map ConsoleLog lines.

(** The identifiers whose reference check reported zero entries. *)
Definition zeroChecked (checks : list (string * nat * Z)) : list string :=
  map (λ c, c.1.1) (List.filter (λ c, c.2 =? 0) checks).

(** The identifiers of the reference checks asked for, answered or not. *)
Definition checksAsked (tr : list Event) : list string :=
  omap (λ e, match e with
             | GetEntries a _ _ => Some a
             | _ => None
             end) tr.

(** The [j]-th listing request of a scan. *)
Definition requestAt (j : nat) : nat * nat * string :=
  ((limit * j)%nat, limit, "sys.createdAt").

(** A page with as many assets as were asked for. *)
Definition fullPage (page : list Asset) : Prop := (limit ≤ length page)%nat.

(** The bytes of a string contain the character [c]. *)
Fixpoint occurs (c : ascii) (s : string) : bool :=
  match s with
  | EmptyString => false
  | String c' s' => Ascii.eqb c c' || occurs c s'
  end.

(** ** A repository that does not change during the run *)

Module Fixture.

(** The logarithm of an engine.  The byte counts of the examples have the
    correctly rounded double of their natural logarithm; any other
    argument has the logarithm of the largest power of two not above it,
    a multiple of a tenth of the logarithm of 1024. *)
Definition double (n d : positive) : positive * positive := (n, d).

Definition log (x : Z) : positive * positive :=
  let known : list (Z * (positive * positive)) :=
    [ (2, double 6243314768165359 9007199254740992);
      (3, double 4947709893870347 4503599627370496);
      (1023, double 7803043411358229 1125899906842624);
      (1024, double 7804143460206699 1125899906842624);
      (1536, double 516291036728351 70368744177664);
      (1234567, double 3948033004454027 281474976710656);
      (2 ^ 20, double 7804143460206699 562949953421312);
      (2 ^ 30, double 365819224697189 17592186044416);
      (2 ^ 40 - 1, double 7804143460206443 281474976710656);
      (2 ^ 40, double 7804143460206699 281474976710656);
      (2 ^ 50 - 4, double 2438794831314593 70368744177664);
      (2 ^ 50 - 3, double 4877589662629187 140737488355328);
      (2 ^ 50 - 2, double 4877589662629187 140737488355328);
      (2 ^ 50 - 1, double 4877589662629187 140737488355328);
      (2 ^ 50, double 4877589662629187 140737488355328);
      (2 ^ 52, double 2536346624567177 70368744177664);
      (2 ^ 53 - 1, double 2585122521193469 70368744177664) ] in
  match list_find (λ p, p.1 = x) known with
  | Some (_, (_, l)) => l
  | None =>
      double (Z.to_pos (Z.log2 x) * 7804143460206699)
             (10 * 1125899906842624)
  end.

(** A client over a fixed list of assets and a fixed number of linking
    entries per asset identifier; [fails] names the assets whose reference
    check raises. *)
Definition host (repo : list Asset) (refs : string → Z)
    (fails : string → bool) : Host :=
  {| World := unit;
     StringToNumber := λ _, NaN;
     Math_log := log;
     toLocaleDateString := template;
     client_getAssets := λ _ w skip limit _,
       (w, Ok (take limit (drop skip repo)));
     client_getEntries := λ _ w id _,
       (w, if fails id then Throw "503" else Ok (refs id));
     now_toISOString := λ _, "2024-01-02T03:04:05.678Z";
     fs_writeFile := λ w _ _, (w, Ok tt) |}.

Definition asset (id : string) : Asset :=
  {| sys_id := id;
     sys_createdAt := JStr "2020-01-01";
     sys_updatedAt := JStr "2020-01-02";
     fields_title := JStr id;
     fields_file := JUndefined |}.

Definition env : Env :=
  {| SPACE_ID := Some "space1"; ENVIRONMENT := None;
     ACCESS_TOKEN := Some "token" |}.

(** [n] assets named by their position. *)
Definition assets (n : nat) : list Asset :=
  map (λ i : nat, asset (pretty i)) (seq 0 n).

(** Odd positions are linked once, even positions are not linked. *)
Definition refs_of (n : nat) (id : string) : Z :=
  if decide (id ∈ map (λ i : nat, pretty (2 * i)%nat) (seq 0 n)) then 0 else 1.

(** The mock repository of the end-to-end scenario: three assets, the
    second one without a linking entry. *)
Definition scenario : Host :=
  host (assets 3) (λ id, if String.eqb id "1" then 0 else 1) (λ _, false).

(** The same repository with every asset linked. *)
Definition allLinked : Host := host (assets 3) (λ _, 1) (λ _, false).

(** What a run leaves behind: exit code, files, console. *)
Definition summary (o : option Outcome)
    : option (Z * list (string * list Report.Entry) * list string) :=
  match o with
  | Some o =>
      Some (exitCode o, reportsWritten (events o), consoleLines (events o))
  | None => None
  end.

(** A listing that never ends: every page is full, whatever the offset. *)
Definition endless : Host :=
  {| World := unit;
     StringToNumber := λ _, NaN;
     Math_log := log;
     toLocaleDateString := template;
     client_getAssets := λ _ w _ limit _, (w, Ok (replicate limit (asset "x")));
     client_getEntries := λ _ w _ _, (w, Ok 1);
     now_toISOString := λ _, "2024-01-02T03:04:05.678Z";
     fs_writeFile := λ w _ _, (w, Ok tt) |}.

(** A client that is down: the listing raises. *)
Definition outage : Host :=
  {| World := unit;
     StringToNumber := λ _, NaN;
     Math_log := log;
     toLocaleDateString := template;
     client_getAssets := λ _ w _ _ _, (w, Throw "ECONNRESET");
     client_getEntries := λ _ w _ _, (w, Ok 1);
     now_toISOString := λ _, "2024-01-02T03:04:05.678Z";
     fs_writeFile := λ w _ _, (w, Ok tt) |}.

(** The scenario in a directory that cannot be written. *)
Definition readOnly : Host :=
  {| World := unit;
     StringToNumber := λ _, NaN;
     Math_log := log;
     toLocaleDateString := template;
     client_getAssets := client_getAssets scenario;
     client_getEntries := client_getEntries scenario;
     now_toISOString := λ _, "2024-01-02T03:04:05.678Z";
     fs_writeFile := λ w _ _, (w, Throw "EACCES") |}.

(** The offsets of the listing requests of a scan over [n] assets. *)
Definition requestOffsets (n : nat) : option (list nat) :=
  match findUnlinkedAssets (host (assets n) (refs_of n) (λ _, false)) env
          (n / limit + 2) tt [] with
  | Some (s, _) => Some (map (λ q, q.1.1) (assetRequests (trace s)))
  | None => None
  end.

End Fixture.

(** ** Proof steps *)

(** Opens the operations of the monad. *)
Ltac unfold_monad :=
  unfold mbind, M_bind, mret, M_ret, getEntries, getAssets, push,
    console_log, console_error, emit, set_skip, set_hasMoreAssets, get_skip.

(** ** Doubles *)

Section Doubles.

Lemma nearest_even_bounds a b :
  0 < b →
  2 * a - b ≤ 2 * nearest_even a b * b ≤ 2 * a + b.
Proof.
  intros Hb. unfold nearest_even.
  pose proof (Z.div_mod a b ltac:(lia)) as Hdiv.
  pose proof (Z.mod_pos_bound a b Hb) as Hmod.
  destruct (Z.compare_spec (2 * (a mod b)) b) as [Heq | Hlt | Hgt].
  - destruct (Z.even (a / b)); nia.
  - nia.
  - nia.
Qed.


(** The exponent is not above the binary logarithm: [2^e ≤ n / d]. *)
Lemma ilog2_lower n d :
  0 < n → 0 < d →
  d * 2 ^ Z.max (ilog2 n d) 0 ≤ n * 2 ^ Z.max (- ilog2 n d) 0.
Proof.
  intros Hn Hd. unfold ilog2.
  set (e := Z.log2 n - Z.log2 d).
  destruct (Z.leb_spec (d * 2 ^ Z.max e 0) (n * 2 ^ Z.max (- e) 0)) as [H|H];
    [exact H|].
  pose proof (Z.log2_spec n Hn) as [Hn1 Hn2].
  pose proof (Z.log2_spec d Hd) as [Hd1 Hd2].
  pose proof (Z.log2_nonneg n). pose proof (Z.log2_nonneg d).
  rewrite Z.pow_succ_r in Hn2, Hd2 by lia.
  destruct (Z.le_gt_cases 1 e) as [Hpos | Hneg].
  - rewrite (Z.max_l (e - 1) 0), (Z.max_r (- (e - 1)) 0) by lia.
    rewrite Z.pow_0_r, Z.mul_1_r.
    assert (Hsplit : 2 ^ Z.log2 n = 2 ^ (e - 1) * 2 ^ (Z.log2 d + 1)).
    { rewrite <- Z.pow_add_r by lia. f_equal. unfold e. lia. }
    rewrite Z.pow_add_r, Z.pow_1_r in Hsplit by lia.
    assert (0 < 2 ^ (e - 1)) by (apply Z.pow_pos_nonneg; lia).
    nia.
  - rewrite (Z.max_r (e - 1) 0), (Z.max_l (- (e - 1)) 0) by lia.
    rewrite Z.pow_0_r, Z.mul_1_r.
    assert (Hsplit : 2 ^ (Z.log2 d + 1) = 2 ^ Z.log2 n * 2 ^ (- (e - 1))).
    { rewrite <- Z.pow_add_r by lia. f_equal. unfold e. lia. }
    rewrite Z.pow_add_r, Z.pow_1_r in Hsplit by lia.
    assert (0 < 2 ^ (- (e - 1))) by (apply Z.pow_pos_nonneg; lia).
    nia.
Qed.

(** The exponent is the binary logarithm: [n / d < 2^(e+1)]. *)
Lemma ilog2_upper n d :
  0 < n → 0 < d →
  n * 2 ^ Z.max (- (ilog2 n d + 1)) 0 < d * 2 ^ Z.max (ilog2 n d + 1) 0.
Proof.
  intros Hn Hd. unfold ilog2.
  set (e := Z.log2 n - Z.log2 d).
  destruct (Z.leb_spec (d * 2 ^ Z.max e 0) (n * 2 ^ Z.max (- e) 0)) as [_|H].
  - pose proof (Z.log2_spec n Hn) as [Hn1 Hn2].
    pose proof (Z.log2_spec d Hd) as [Hd1 Hd2].
    pose proof (Z.log2_nonneg n). pose proof (Z.log2_nonneg d).
    destruct (Z.le_gt_cases 0 (e + 1)) as [Hpos | Hneg].
    + rewrite (Z.max_r (- (e + 1)) 0), (Z.max_l (e + 1) 0) by lia.
      rewrite Z.pow_0_r, Z.mul_1_r.
      assert (Hsplit : 2 ^ Z.succ (Z.log2 n) = 2 ^ Z.log2 d * 2 ^ (e + 1)).
      { rewrite <- Z.pow_add_r by lia. f_equal. unfold e. lia. }
      assert (0 < 2 ^ (e + 1)) by (apply Z.pow_pos_nonneg; lia).
      nia.
    + rewrite (Z.max_l (- (e + 1)) 0), (Z.max_r (e + 1) 0) by lia.
      rewrite Z.pow_0_r, Z.mul_1_r.
      assert (Hsplit : 2 ^ Z.log2 d
                       = 2 ^ Z.succ (Z.log2 n) * 2 ^ (- (e + 1))).
      { rewrite <- Z.pow_add_r by lia. f_equal. unfold e. lia. }
      assert (0 < 2 ^ (- (e + 1))) by (apply Z.pow_pos_nonneg; lia).
      nia.
  - replace (e - 1 + 1) with e by lia. exact H.
Qed.

(** The quotient has a significand of 53 bits. *)
Lemma double_div_significand (x y : positive * positive) :
  2 ^ 52 ≤ (double_div x y).1 ≤ 2 ^ 53.
Proof.
  unfold double_div. cbn [fst].
  set (n := Z.pos x.1 * Z.pos y.2). set (d := Z.pos x.2 * Z.pos y.1).
  assert (Hn : 0 < n) by (unfold n; lia).
  assert (Hd : 0 < d) by (unfold d; lia).
  pose proof (ilog2_lower n d Hn Hd) as Hlo.
  pose proof (ilog2_upper n d Hn Hd) as Hhi.
  set (e := ilog2 n d) in *.
  set (N := n * 2 ^ Z.max (- (e - 52)) 0).
  set (D := d * 2 ^ Z.max (e - 52) 0).
  assert (HD : 0 < D).
  { unfold D. apply Z.mul_pos_pos; [lia|]. apply Z.pow_pos_nonneg; lia. }
  assert (Hbounds : 2 ^ 52 * D ≤ N < 2 ^ 53 * D).
  { unfold N, D.
    destruct (Z.le_gt_cases 52 e) as [Hbig | Hsmall].
    - rewrite (Z.max_r (- (e - 52)) 0), (Z.max_l (e - 52) 0) by lia.
      rewrite (Z.max_l e 0), (Z.max_r (- e) 0) in Hlo by lia.
      rewrite (Z.max_r (- (e + 1)) 0), (Z.max_l (e + 1) 0) in Hhi by lia.
      rewrite Z.pow_0_r, Z.mul_1_r in *.
      assert (E1 : 2 ^ e = 2 ^ 52 * 2 ^ (e - 52)).
      { rewrite <- Z.pow_add_r by lia. f_equal. lia. }
      assert (E2 : 2 ^ (e + 1) = 2 ^ 53 * 2 ^ (e - 52)).
      { rewrite <- Z.pow_add_r by lia. f_equal. lia. }
      rewrite E1 in Hlo. rewrite E2 in Hhi. lia.
    - rewrite (Z.max_l (- (e - 52)) 0), (Z.max_r (e - 52) 0) by lia.
      rewrite Z.pow_0_r, Z.mul_1_r.
      destruct (Z.le_gt_cases 0 e) as [Hpos | Hneg].
      + rewrite (Z.max_l e 0), (Z.max_r (- e) 0) in Hlo by lia.
        rewrite (Z.max_r (- (e + 1)) 0), (Z.max_l (e + 1) 0) in Hhi by lia.
        rewrite Z.pow_0_r, Z.mul_1_r in *.
        assert (E1 : 2 ^ 52 = 2 ^ e * 2 ^ (- (e - 52))).
        { rewrite <- Z.pow_add_r by lia. f_equal. lia. }
        assert (E2 : 2 ^ 53 = 2 ^ (e + 1) * 2 ^ (- (e - 52))).
        { rewrite <- Z.pow_add_r by lia. f_equal. lia. }
        assert (0 < 2 ^ (- (e - 52))) by (apply Z.pow_pos_nonneg; lia).
        rewrite E1, E2. nia.
      + rewrite (Z.max_r e 0), (Z.max_l (- e) 0) in Hlo by lia.
        rewrite (Z.max_l (- (e + 1)) 0), (Z.max_r (e + 1) 0) in Hhi by lia.
        rewrite Z.pow_0_r, Z.mul_1_r in *.
        assert (E1 : 2 ^ (- (e - 52)) = 2 ^ 52 * 2 ^ (- e)).
        { rewrite <- Z.pow_add_r by lia. f_equal. lia. }
        assert (E2 : 2 ^ (- (e - 52)) = 2 ^ 53 * 2 ^ (- (e + 1))).
        { rewrite <- Z.pow_add_r by lia. f_equal. lia. }
        split; [rewrite E1 | rewrite E2]; nia. }
  pose proof (nearest_even_bounds N D HD) as Hm.
  set (m := nearest_even N D) in *.
  split; nia.
Qed.

Context (x y : positive * positive).
Let n := Z.pos x.1 * Z.pos y.2.
Let d := Z.pos x.2 * Z.pos y.1.








End Doubles.

(** ** The formatter *)

Section Formatter.
Context (s2n : string → Number) (Math_log : Z → positive * positive).

Lemma formatFileSize_falsy v :
  truthy v = false → formatFileSize s2n Math_log v = "Unknown".
Proof. intros Hv. unfold formatFileSize. by rewrite Hv. Qed.

Lemma formatFileSize_not_a_number v :
  isNaN s2n v = true → formatFileSize s2n Math_log v = "Unknown".
Proof.
  intros Hv. unfold formatFileSize. rewrite Hv.
  by destruct (negb (truthy v)).
Qed.

(** An absent byte count ([undefined] or [null]) and a byte count that is
    not a number (NaN, an object, a string without a numeric value) all
    give "Unknown". *)
Lemma formatFileSize_absent_or_non_numeric :
  formatFileSize s2n Math_log JUndefined = "Unknown"
  ∧ formatFileSize s2n Math_log JNull = "Unknown"
  ∧ formatFileSize s2n Math_log (JNum NaN) = "Unknown"
  ∧ (∀ props, formatFileSize s2n Math_log (JObj props) = "Unknown")
  ∧ (∀ s, s2n s = NaN → formatFileSize s2n Math_log (JStr s) = "Unknown").
Proof.
  repeat split; try reflexivity.
  intros s Hs. apply formatFileSize_not_a_number.
  unfold isNaN. simpl. by rewrite Hs.
Qed.

(** [toFixed(2)] rounds to the nearest hundredth, upwards on a tie. *)
Lemma nearest_hundredth_spec num den :
  0 < den →
  let n := nearest_hundredth num den in
  2 * n * den - den ≤ 200 * num < 2 * n * den + den.
Proof.
  intros Hden n. unfold n, nearest_hundredth.
  pose proof (Z.div_mod (200 * num + den) (2 * den)).
  pose proof (Z.mod_pos_bound (200 * num + den) (2 * den)).
  nia.
Qed.








End Formatter.

(** C4.  The claim: the formatter maps the byte count zero to "0 Bytes" and
    an absent or non-numeric byte count to "Unknown".  The code: the guard
    [!bytes || isNaN(bytes)] on line 36 is taken by zero as well, so the
    formatter answers "Unknown" for the byte count zero and the test
    [bytes === 0] on line 39 is never reached; the caller on line 101 tests
    [fileSize] for truth first, so the entry of an asset of zero bytes has
    the size "Unknown" too. *)
Theorem formatFileSize_zero_is_Unknown (H : Host) (env : Env) (a : Asset) :
  formatFileSize (StringToNumber H) (Math_log H) (JNum (Num 0)) = "Unknown"
  ∧ formatFileSize (StringToNumber H) (Math_log H) (JNum (Num 0))
    ≠ "0 Bytes"
  ∧ Report.fileSize
      (reportEntry H env
         {| sys_id := sys_id a; sys_createdAt := sys_createdAt a;
            sys_updatedAt := sys_updatedAt a; fields_title := fields_title a;
            fields_file :=
              JObj {[ "details" := JObj {[ "size" := JNum (Num 0) ]} ]} |})
    = "Unknown".
Proof. split; [reflexivity | split; [discriminate | reflexivity]]. Qed.







(** ** One reference check *)

Section CheckAsset.
Context (H : Host) (env : Env).

(** The three ways a reference check ends. *)
Lemma checkAsset_unlinked s a w :
  client_getEntries H (client env) (world s) (sys_id a) 1 = (w, Ok 0) →
  checkAsset H env a s
  = ({| world := w;
        trace := trace s ++ [GetEntries (sys_id a) 1 (Ok 0)]
                 ++ [ConsoleLog ("✓ Found unlinked asset: "
                                 +:+ template (Report.title (reportEntry H env a)))];
        unlinkedAssets := unlinkedAssets s ++ [reportEntry H env a];
        skip := skip s; hasMoreAssets := hasMoreAssets s |}, Ok tt).
Proof.
  intros Hq. unfold checkAsset. unfold_monad. rewrite Hq. simpl.
  by rewrite <- app_assoc.
Qed.

Lemma checkAsset_linked s a w total :
  client_getEntries H (client env) (world s) (sys_id a) 1 = (w, Ok total) →
  total ≠ 0 →
  checkAsset H env a s
  = ({| world := w;
        trace := trace s ++ [GetEntries (sys_id a) 1 (Ok total)];
        unlinkedAssets := unlinkedAssets s;
        skip := skip s; hasMoreAssets := hasMoreAssets s |}, Ok tt).
Proof.
  intros Hq Hne. unfold checkAsset. unfold_monad. rewrite Hq. simpl.
  by destruct (Z.eqb_spec total 0).
Qed.

Lemma checkAsset_throws s a w e :
  client_getEntries H (client env) (world s) (sys_id a) 1 = (w, Throw e) →
  checkAsset H env a s
  = ({| world := w;
        trace := trace s ++ [GetEntries (sys_id a) 1 (Throw e)];
        unlinkedAssets := unlinkedAssets s;
        skip := skip s; hasMoreAssets := hasMoreAssets s |}, Throw e).
Proof. intros Hq. unfold checkAsset. unfold_monad. by rewrite Hq. Qed.

End CheckAsset.

(** C7.  When the reference check of an asset reports zero entries, one
    entry is appended for it, and its title is the localized title
    [asset.fields.title?.["en-US"]] when that is present (truthy),
    otherwise the raw [asset.fields.title] when that is present, otherwise
    "Untitled". *)
Theorem unlinked_entry_title (H : Host) (env : Env) (s : St H) (a : Asset) :
  (client_getEntries H (client env) (world s) (sys_id a) 1).2 = Ok 0 →
  let localized := opt_get (fields_title a) "en-US" in
  let raw := fields_title a in
  ∃ e, unlinkedAssets (checkAsset H env a s).1 = unlinkedAssets s ++ [e]
       ∧ Report.id e = sys_id a
       ∧ Report.title e
         = if truthy localized then localized
           else if truthy raw then raw
           else JStr "Untitled".
Proof.
  intros Hq localized raw.
  destruct (client_getEntries H (client env) (world s) (sys_id a) 1)
    as [w r] eqn:E. simpl in Hq. subst r.
  rewrite (checkAsset_unlinked H env s a w E). simpl.
  eexists. split; [reflexivity|]. split; [reflexivity|].
  simpl. unfold Js.or. fold localized. fold raw.
  destruct (truthy localized) eqn:El; simpl; [by rewrite ?El|].
  by destruct (truthy raw) eqn:Er; simpl; rewrite ?Er.
Qed.

(** C8.  The deep link of a report entry is the template with the space
    identifier, the environment identifier of the client and the asset
    identifier put in, character for character; an environment identifier
    that is configured is the one of the client. *)
Theorem deep_link (H : Host) (env : Env) (S : string) (a : Asset) :
  SPACE_ID env = Some S →
  (∀ S' E A,
     getContentfulWebAppUrl (Some S') A (Some E)
     = "https://app.contentful.com/spaces/" +:+ S' +:+ "/environments/"
       +:+ E +:+ "/assets/" +:+ A)
  ∧ Report.contentfulUrl (reportEntry H env a)
    = "https://app.contentful.com/spaces/" +:+ S +:+ "/environments/"
      +:+ environment (client env) +:+ "/assets/" +:+ sys_id a
  ∧ (∀ E, ENVIRONMENT env = Some E → E ≠ "" → environment (client env) = E).
Proof.
  intros HS. split; [reflexivity|]. split.
  - simpl. unfold getContentfulWebAppUrl. by rewrite HS.
  - intros E HE Hne. simpl. rewrite HE. simpl.
    destruct E; [done | reflexivity].
Qed.

(** C9.  When the space identifier or the access token is absent, the
    script prints one error line and exits with code 1: no call of the
    client and no file precede the exit, whatever the fuel.  An absent
    environment identifier makes the client use "master". *)
Theorem missing_configuration (H : Host) (env : Env) (fuel : nat)
    (w : World H) :
  SPACE_ID env = None ∨ ACCESS_TOKEN env = None →
  script H env fuel w
  = Some {| events :=
              [ConsoleError "Missing required environment variables. Please check your .env file."];
            exitCode := 1 |}
  ∧ (∀ out, script H env fuel w = Some out →
       exitCode out = 1
       ∧ ∀ e, e ∈ events out → ∃ line, e = ConsoleError line)
  ∧ (∀ s t,
       environment
         (client {| SPACE_ID := s; ENVIRONMENT := None; ACCESS_TOKEN := t |})
       = "master").
Proof.
  intros Hmissing.
  assert (Hrun : script H env fuel w
    = Some {| events :=
                [ConsoleError "Missing required environment variables. Please check your .env file."];
              exitCode := 1 |}).
  { unfold script. destruct Hmissing as [-> | ->]; simpl; [done|].
    by rewrite orb_true_r. }
  split; [exact Hrun|]. split; [|reflexivity].
  intros out Hout. rewrite Hrun in Hout. injection Hout as <-. simpl.
  split; [done|]. intros e He. apply list_elem_of_singleton in He. eauto.
Qed.

(** ** One batch, whatever the client answers *)

Section Batch.
Context (H : Host) (env : Env).

Lemma for_of_nil (s : St H) : for_of [] (checkAsset H env) s = (s, Ok tt).
Proof. reflexivity. Qed.

Lemma for_of_cons a assets (s : St H) :
  for_of (a :: assets) (checkAsset H env) s
  = match checkAsset H env a s with
    | (s', Ok _) => for_of assets (checkAsset H env) s'
    | (s', Throw e) => (s', Throw e)
    end.
Proof. reflexivity. Qed.

(** The frame of a reference check: offset and flag stay, entries and
    events are only appended. *)
Lemma checkAsset_frame a (s : St H) :
  let r := checkAsset H env a s in
  skip r.1 = skip s ∧ hasMoreAssets r.1 = hasMoreAssets s
  ∧ (∃ added, unlinkedAssets r.1 = unlinkedAssets s ++ added)
  ∧ (∃ new, trace r.1 = trace s ++ new).
Proof.
  destruct (client_getEntries H (client env) (world s) (sys_id a) 1)
    as [w [total | e]] eqn:E.
  - destruct (Z.eq_dec total 0) as [-> | Hne].
    + rewrite (checkAsset_unlinked H env s a w E). simpl.
      repeat split; eauto.
    + rewrite (checkAsset_linked H env s a w total E Hne). simpl.
      repeat split; eauto. exists []. by rewrite app_nil_r.
  - rewrite (checkAsset_throws H env s a w e E). simpl.
    repeat split; eauto. exists []. by rewrite app_nil_r.
Qed.

Lemma for_of_frame assets (s : St H) :
  let r := for_of assets (checkAsset H env) s in
  skip r.1 = skip s ∧ hasMoreAssets r.1 = hasMoreAssets s
  ∧ (∃ added, unlinkedAssets r.1 = unlinkedAssets s ++ added)
  ∧ (∃ new, trace r.1 = trace s ++ new).
Proof.
  revert s. induction assets as [|a assets IH]; intros s.
  - simpl. repeat split; auto; exists []; by rewrite app_nil_r.
  - rewrite for_of_cons.
    pose proof (checkAsset_frame a s) as (Hs & Hh & [ad1 Hu] & [n1 Ht]).
    destruct (checkAsset H env a s) as [s1 [[]|e]]; simpl in *.
    + specialize (IH s1) as (Hs' & Hh' & [ad2 Hu'] & [n2 Ht']).
      simpl in *. rewrite Hs', Hh', Hu', Ht', Hs, Hh, Hu, Ht.
      repeat split; auto; eexists; by rewrite <- app_assoc.
    + repeat split; eauto.
Qed.

(** The [try] block when the listing raises. *)
Lemma fetchBatch_listing_throws (s : St H) w e :
  client_getAssets H (client env) (world s) (skip s) limit "sys.createdAt"
  = (w, Throw e) →
  ∃ s1, fetchBatch H env s = (s1, Throw e)
        ∧ unlinkedAssets s1 = unlinkedAssets s
        ∧ skip s1 = skip s ∧ hasMoreAssets s1 = hasMoreAssets s
        ∧ clientCalls (trace s1)
          = clientCalls (trace s)
            ++ [GetAssets (skip s) limit "sys.createdAt" (Throw e)].
Proof.
  intros Hq. unfold fetchBatch. unfold_monad. simpl. rewrite Hq. simpl.
  eexists. split; [reflexivity|]. simpl. repeat split.
  unfold clientCalls. by rewrite !List.filter_app, app_nil_r.
Qed.

(** The [try] block when the listing answers an empty page. *)
Lemma fetchBatch_empty (s : St H) w :
  client_getAssets H (client env) (world s) (skip s) limit "sys.createdAt"
  = (w, Ok []) →
  ∃ s1, fetchBatch H env s = (s1, Ok tt)
        ∧ unlinkedAssets s1 = unlinkedAssets s
        ∧ skip s1 = skip s ∧ hasMoreAssets s1 = false
        ∧ clientCalls (trace s1)
          = clientCalls (trace s)
            ++ [GetAssets (skip s) limit "sys.createdAt" (Ok [])].
Proof.
  intros Hq. unfold fetchBatch. unfold_monad. simpl. rewrite Hq. simpl.
  eexists. split; [reflexivity|]. simpl. repeat split.
  unfold clientCalls. by rewrite !List.filter_app, app_nil_r.
Qed.

(** The [try] block when the listing answers a page with assets. *)
Lemma fetchBatch_page (s : St H) w page :
  client_getAssets H (client env) (world s) (skip s) limit "sys.createdAt"
  = (w, Ok page) →
  page ≠ [] →
  fetchBatch H env s
  = match for_of page (checkAsset H env) (afterListing s w (Ok page)) with
    | (s1, Ok _) =>
        ({| world := world s1; trace := trace s1;
            unlinkedAssets := unlinkedAssets s1;
            skip := (skip s + limit)%nat;
            hasMoreAssets :=
              if (length page <? limit)%nat then false
              else hasMoreAssets s1 |}, Ok tt)
    | (s1, Throw e) => (s1, Throw e)
    end.
Proof.
  intros Hq Hne. unfold fetchBatch. unfold_monad. simpl. rewrite Hq. simpl.
  destruct page as [|a page]; [done|].
  change (length (a :: page) =? 0)%nat with false. cbv iota.
  unfold afterListing. rewrite <- app_assoc.
  destruct (for_of (a :: page) (checkAsset H env) _) as [s1 [[]|e]];
    [|reflexivity].
  destruct (length (a :: page) <? limit)%nat; reflexivity.
Qed.

(** The [catch] block. *)
Lemma iteration_caught (s s1 : St H) e :
  fetchBatch H env s = (s1, Throw e) →
  iteration H env s
  = ({| world := world s1;
        trace := trace s1
                 ++ [ConsoleError ("Error fetching or processing assets: " +:+ e)];
        unlinkedAssets := unlinkedAssets s1; skip := skip s1;
        hasMoreAssets := false |}, Ok tt).
Proof.
  intros Hb. unfold iteration, try_catch. rewrite Hb.
  unfold onError. unfold_monad. reflexivity.
Qed.

Lemma iteration_passed (s s1 : St H) :
  fetchBatch H env s = (s1, Ok tt) → iteration H env s = (s1, Ok tt).
Proof. intros Hb. unfold iteration, try_catch. by rewrite Hb. Qed.

End Batch.

(** ** The scan over a repository that does not change *)

Section Fixed.
Context (H : Host) (env : Env) (repo : list Asset) (refs : string → Z).
Hypothesis Hfixed : fixedRepository H repo refs.

Lemma clientCalls_app tr1 tr2 :
  clientCalls (tr1 ++ tr2) = clientCalls tr1 ++ clientCalls tr2.
Proof. apply List.filter_app. Qed.

Lemma unlinked_app l1 l2 :
  unlinked refs (l1 ++ l2) = unlinked refs l1 ++ unlinked refs l2.
Proof. apply List.filter_app. Qed.

Lemma for_of_fixed page (s : St H) :
  ∃ s1, for_of page (checkAsset H env) s = (s1, Ok tt)
        ∧ unlinkedAssets s1
          = unlinkedAssets s ++ map (reportEntry H env) (unlinked refs page)
        ∧ skip s1 = skip s ∧ hasMoreAssets s1 = hasMoreAssets s
        ∧ clientCalls (trace s1)
          = clientCalls (trace s) ++ map (checkCall refs) page.
Proof.
  revert s. induction page as [|a page IH]; intros s.
  - exists s. simpl. by rewrite !app_nil_r.
  - rewrite for_of_cons.
    destruct Hfixed as [_ Hrefs].
    specialize (Hrefs (client env) (world s) (sys_id a)).
    destruct (client_getEntries H (client env) (world s) (sys_id a) 1)
      as [w r] eqn:E. simpl in Hrefs. subst r.
    destruct (Z.eq_dec (refs (sys_id a)) 0) as [H0 | Hne].
    + rewrite H0 in E. rewrite (checkAsset_unlinked H env s a w E).
      destruct (IH {| world := w;
                      trace := trace s ++ [GetEntries (sys_id a) 1 (Ok 0)]
                        ++ [ConsoleLog ("✓ Found unlinked asset: "
                              +:+ template (Report.title (reportEntry H env a)))];
                      unlinkedAssets := unlinkedAssets s ++ [reportEntry H env a];
                      skip := skip s; hasMoreAssets := hasMoreAssets s |})
        as (s1 & Hrun & Hu & Hs & Hh & Ht).
      exists s1. split; [exact Hrun|]. simpl in *.
      rewrite Hu, Hs, Hh, Ht. unfold unlinked at 2, checkCall at 2. simpl.
      rewrite H0. simpl. rewrite !clientCalls_app. simpl.
      fold (unlinked refs page). by rewrite <- !app_assoc.
    + rewrite (checkAsset_linked H env s a w _ E Hne).
      destruct (IH {| world := w;
                      trace := trace s
                        ++ [GetEntries (sys_id a) 1 (Ok (refs (sys_id a)))];
                      unlinkedAssets := unlinkedAssets s;
                      skip := skip s; hasMoreAssets := hasMoreAssets s |})
        as (s1 & Hrun & Hu & Hs & Hh & Ht).
      exists s1. split; [exact Hrun|]. simpl in *.
      rewrite Hu, Hs, Hh, Ht. unfold unlinked at 2. simpl.
      destruct (Z.eqb_spec (refs (sys_id a)) 0) as [|_]; [done|].
      rewrite !clientCalls_app. simpl. by rewrite <- !app_assoc.
Qed.

Lemma iteration_fixed (s : St H) :
  let page := take limit (drop (skip s) repo) in
  ∃ s1, iteration H env s = (s1, Ok tt)
        ∧ unlinkedAssets s1
          = unlinkedAssets s ++ map (reportEntry H env) (unlinked refs page)
        ∧ clientCalls (trace s1)
          = clientCalls (trace s) ++ batchCalls repo refs (skip s)
        ∧ skip s1 = (if (length page =? 0)%nat then skip s
                     else (skip s + limit)%nat)
        ∧ hasMoreAssets s1 = (if (length page <? limit)%nat then false
                              else hasMoreAssets s).
Proof.
  intros page.
  destruct Hfixed as [Hlist _].
  specialize (Hlist (client env) (world s) (skip s) limit).
  destruct (client_getAssets H (client env) (world s) (skip s) limit
              "sys.createdAt") as [w r] eqn:E.
  simpl in Hlist. subst r. fold page in E. unfold batchCalls. fold page.
  destruct page as [|a page'] eqn:Epage.
  - destruct (fetchBatch_empty H env s w E) as (s1 & Hrun & Hu & Hs & Hh & Ht).
    exists s1. split; [by apply iteration_passed|].
    simpl. by rewrite Hu, Hs, Hh, Ht, app_nil_r.
  - rewrite <- Epage in *.
    assert (Hne : page ≠ []) by (rewrite Epage; discriminate).
    pose proof (fetchBatch_page H env s w page E Hne) as Hrun.
    destruct (for_of_fixed page (afterListing s w (Ok page)))
      as (s1 & Hfor & Hu & Hs & Hh & Ht).
    rewrite Hfor in Hrun.
    eexists. split; [apply iteration_passed; exact Hrun|]. simpl.
    rewrite Hu, Ht, Hh. simpl. rewrite !clientCalls_app. simpl.
    rewrite <- app_assoc. simpl.
    repeat split; try done.
    rewrite Epage. reflexivity.
Qed.

Lemma while_fixed k : ∀ (s : St H) fuel,
  hasMoreAssets s = true →
  (limit * k ≤ length repo - skip s < limit * (k + 1))%nat →
  (k + 2 ≤ fuel)%nat →
  ∃ s', while fuel hasMoreAssets (iteration H env) s = Some (s', Ok tt)
        ∧ unlinkedAssets s'
          = unlinkedAssets s
            ++ map (reportEntry H env) (unlinked refs (drop (skip s) repo))
        ∧ clientCalls (trace s')
          = clientCalls (trace s)
            ++ flat_map (batchCalls repo refs)
                 (map (λ j, (skip s + limit * j)%nat) (seq 0 (k + 1))).
Proof.
  induction k as [|k IH]; intros s fuel Hmore Hlen Hfuel.
  - destruct fuel as [|[|fuel]]; [lia | lia |].
    destruct (iteration_fixed s) as (s1 & Hrun & Hu & Ht & Hs & Hh).
    assert (Hpage : take limit (drop (skip s) repo) = drop (skip s) repo).
    { apply take_ge. rewrite length_drop. unfold limit in *. lia. }
    rewrite Hpage in *.
    assert (Hshort : (length (drop (skip s) repo) <? limit)%nat = true).
    { apply Nat.ltb_lt. rewrite length_drop. unfold limit in *. lia. }
    rewrite Hshort in Hh.
    exists s1. split.
    + cbn [while]. rewrite Hmore, Hrun. cbn [while]. by rewrite Hh.
    + split; [exact Hu|]. rewrite Ht. cbn [seq map flat_map Nat.add].
      by rewrite Nat.mul_0_r, Nat.add_0_r, app_nil_r.
  - destruct fuel as [|fuel]; [lia|].
    destruct (iteration_fixed s) as (s1 & Hrun & Hu & Ht & Hs & Hh).
    assert (Hfull : length (take limit (drop (skip s) repo)) = limit).
    { rewrite length_take, length_drop. unfold limit in *. lia. }
    rewrite Hfull in Hs, Hh.
    change (limit =? 0)%nat with false in Hs.
    rewrite Nat.ltb_irrefl in Hh. rewrite Hmore in Hh.
    destruct (IH s1 fuel Hh) as (s' & Hloop & Hu' & Ht').
    { rewrite Hs. unfold limit in *. lia. }
    { lia. }
    exists s'. split.
    + cbn [while]. by rewrite Hmore, Hrun.
    + rewrite Hu', Hu, Ht', Ht, Hs. split.
      * rewrite <- app_assoc. f_equal. rewrite <- map_app, <- unlinked_app.
        rewrite <- (drop_drop repo limit (skip s)).
        by rewrite take_drop.
      * rewrite <- app_assoc. f_equal.
        replace (S k + 1)%nat with (S (k + 1)) by lia.
        cbn [seq map flat_map]. rewrite Nat.mul_0_r, Nat.add_0_r. f_equal.
        rewrite <- seq_shift, map_map. f_equal.
        apply map_ext. intros j. lia.
Qed.

(** The whole scan: enough fuel is one turn per full page and two more. *)
Lemma findUnlinkedAssets_fixed fuel (w : World H) tr :
  (length repo / limit + 2 ≤ fuel)%nat →
  ∃ s', findUnlinkedAssets H env fuel w tr
        = Some (s', Ok (map (reportEntry H env) (unlinked refs repo)))
        ∧ clientCalls (trace s')
          = clientCalls tr
            ++ flat_map (batchCalls repo refs)
                 (map (λ j, (limit * j)%nat) (seq 0 (length repo / limit + 1))).
Proof.
  intros Hfuel. unfold findUnlinkedAssets.
  set (s := enter H w _).
  destruct (while_fixed (length repo / limit) s fuel) as (s' & Hloop & Hu & Ht);
    [reflexivity | | exact Hfuel |].
  { change (skip s) with 0%nat. rewrite Nat.sub_0_r.
    pose proof (Nat.div_mod_eq (length repo) limit) as Hdiv.
    assert (Hmod : (length repo `mod` limit < limit)%nat)
      by (apply Nat.mod_upper_bound; discriminate).
    revert Hdiv Hmod.
    generalize (length repo / limit)%nat (length repo `mod` limit)%nat.
    unfold limit. intros q r Hdiv Hmod. lia. }
  exists s'. rewrite Hloop. simpl in Hu. rewrite Hu.
  split; [reflexivity|]. rewrite Ht. subst s. simpl.
  rewrite clientCalls_app. simpl. by rewrite app_nil_r.
Qed.

End Fixed.

(** ** Reading a trace *)

Lemma assetRequests_clientCalls tr :
  assetRequests (clientCalls tr) = assetRequests tr.
Proof.
  induction tr as [|e tr IH]; [done|].
  destruct e; simpl; by rewrite ?IH.
Qed.

Lemma pagesFetched_clientCalls tr :
  pagesFetched (clientCalls tr) = pagesFetched tr.
Proof.
  induction tr as [|e tr IH]; [done|].
  destruct e; simpl; by rewrite ?IH.
Qed.

Lemma referenceChecks_clientCalls tr :
  referenceChecks (clientCalls tr) = referenceChecks tr.
Proof.
  induction tr as [|e tr IH]; [done|].
  destruct e; simpl; by rewrite ?IH.
Qed.

Lemma clientCalls_banner env : clientCalls (banner env) = [].
Proof. reflexivity. Qed.

Section Batches.
Context (repo : list Asset) (refs : string → Z).

Lemma assetRequests_checks page :
  assetRequests (map (checkCall refs) page) = [].
Proof. by induction page. Qed.

Lemma pagesFetched_checks page :
  pagesFetched (map (checkCall refs) page) = [].
Proof. by induction page. Qed.

Lemma referenceChecks_checks page :
  referenceChecks (map (checkCall refs) page)
  = map (λ a, (sys_id a, 1%nat, refs (sys_id a))) page.
Proof. induction page as [|a page IH]; [done|]. simpl. by rewrite IH. Qed.

Lemma assetRequests_batches offs :
  assetRequests (flat_map (batchCalls repo refs) offs)
  = map (λ off, (off, limit, "sys.createdAt")) offs.
Proof.
  induction offs as [|off offs IH]; [done|].
  cbn [flat_map map]. unfold assetRequests in *. rewrite omap_app, IH.
  unfold batchCalls. cbn [omap list_omap].
  pose proof (assetRequests_checks (take limit (drop off repo))) as Hc.
  unfold assetRequests in Hc. by rewrite Hc.
Qed.

Lemma pagesFetched_batches offs :
  pagesFetched (flat_map (batchCalls repo refs) offs)
  = map (λ off, take limit (drop off repo)) offs.
Proof.
  induction offs as [|off offs IH]; [done|].
  cbn [flat_map map]. unfold pagesFetched in *. rewrite omap_app, IH.
  unfold batchCalls. cbn [omap list_omap].
  pose proof (pagesFetched_checks (take limit (drop off repo))) as Hc.
  unfold pagesFetched in Hc. by rewrite Hc.
Qed.

Lemma referenceChecks_batches offs :
  referenceChecks (flat_map (batchCalls repo refs) offs)
  = map (λ a, (sys_id a, 1%nat, refs (sys_id a)))
        (concat (map (λ off, take limit (drop off repo)) offs)).
Proof.
  induction offs as [|off offs IH]; [done|].
  cbn [flat_map map concat]. unfold referenceChecks in *.
  rewrite omap_app, IH, map_app.
  unfold batchCalls. cbn [omap list_omap].
  pose proof (referenceChecks_checks (take limit (drop off repo))) as Hc.
  unfold referenceChecks in Hc. by rewrite Hc.
Qed.

End Batches.

(** ** Cutting a list into pages *)

Section Pages.
Context {A : Type} (l : list A) (P : nat).
Hypothesis HP : (0 < P)%nat.

Lemma pages_prefix k :
  concat (map (pageAt l P) (seq 0 k)) = take (P * k) l.
Proof.
  induction k as [|k IH].
  - by rewrite Nat.mul_0_r.
  - rewrite seq_S, map_app, concat_app, IH. cbn [map concat Nat.add].
    rewrite app_nil_r. unfold pageAt. rewrite take_take_drop.
    f_equal. lia.
Qed.

Lemma pages_cover :
  concat (map (pageAt l P) (seq 0 (length l / P + 1))) = l.
Proof.
  rewrite pages_prefix. apply take_ge.
  pose proof (Nat.div_mod_eq (length l) P).
  pose proof (Nat.mod_upper_bound (length l) P). nia.
Qed.

Lemma page_full j : (j < length l / P)%nat → length (pageAt l P j) = P.
Proof.
  intros Hj. unfold pageAt. rewrite length_take, length_drop.
  pose proof (Nat.div_mod_eq (length l) P).
  assert (P * (j + 1) ≤ P * (length l / P))%nat by (apply Nat.mul_le_mono_l; lia).
  nia.
Qed.

Lemma page_last : (length (pageAt l P (length l / P)) < P)%nat.
Proof.
  unfold pageAt. rewrite length_take, length_drop.
  pose proof (Nat.div_mod_eq (length l) P).
  pose proof (Nat.mod_upper_bound (length l) P). lia.
Qed.

End Pages.

(** ** A batch that raises *)

Section Raising.
Context (H : Host) (env : Env).

(** What the loop over a page does, whatever the client answers: it checks
    a prefix of the page, keeps an entry for every check that reported
    zero, and ends with the page or at the first check that raises. *)
Lemma for_of_general page (s : St H) :
  ∃ s1 r checked totals,
    for_of page (checkAsset H env) s = (s1, r)
    ∧ length totals = length checked
    ∧ Forall2 (answeredBy H (client env)) checked totals
    ∧ unlinkedAssets s1
      = unlinkedAssets s
        ++ map (reportEntry H env) (answeredZero checked totals)
    ∧ skip s1 = skip s ∧ hasMoreAssets s1 = hasMoreAssets s
    ∧ ((r = Ok tt ∧ checked = page
        ∧ clientCalls (trace s1)
          = clientCalls (trace s) ++ answeredCalls checked totals)
       ∨ (∃ a rest e,
            r = Throw e ∧ page = checked ++ a :: rest
            ∧ clientCalls (trace s1)
              = clientCalls (trace s) ++ answeredCalls checked totals
                ++ [GetEntries (sys_id a) 1 (Throw e)])).
Proof.
  revert s. induction page as [|a page IH]; intros s.
  - exists s, (Ok tt), [], []. simpl. rewrite !app_nil_r.
    repeat split; auto.
  - rewrite for_of_cons.
    destruct (client_getEntries H (client env) (world s) (sys_id a) 1)
      as [w [total | e]] eqn:E.
    + assert (Hstep : ∃ s0, checkAsset H env a s = (s0, Ok tt)
          ∧ unlinkedAssets s0
            = unlinkedAssets s
              ++ map (reportEntry H env) (answeredZero [a] [total])
          ∧ skip s0 = skip s ∧ hasMoreAssets s0 = hasMoreAssets s
          ∧ clientCalls (trace s0)
            = clientCalls (trace s) ++ [GetEntries (sys_id a) 1 (Ok total)]).
      { destruct (Z.eq_dec total 0) as [-> | Hne].
        - rewrite (checkAsset_unlinked H env s a w E). eexists.
          split; [reflexivity|]. simpl. repeat split.
          unfold clientCalls. by rewrite !List.filter_app.
        - rewrite (checkAsset_linked H env s a w total E Hne). eexists.
          split; [reflexivity|]. simpl. unfold answeredZero. simpl.
          destruct (Z.eqb_spec total 0) as [|_]; [done|]. simpl.
          rewrite app_nil_r. repeat split.
          unfold clientCalls. by rewrite !List.filter_app. }
      destruct Hstep as (s0 & -> & Hu0 & Hs0 & Hh0 & Ht0).
      destruct (IH s0)
        as (s1 & r & checked & totals & Hrun & Hlen & Hans & Hu & Hs & Hh
            & Hcases).
      exists s1, r, (a :: checked), (total :: totals).
      split; [exact Hrun|]. split; [simpl; by rewrite Hlen|].
      split.
      { constructor; [|exact Hans]. exists (world s). by rewrite E. }
      split.
      { rewrite Hu, Hu0, <- app_assoc, <- map_app. f_equal. f_equal.
        unfold answeredZero. simpl.
        destruct (total =? 0); reflexivity. }
      split; [by rewrite Hs|]. split; [by rewrite Hh|].
      destruct Hcases as [(-> & -> & Ht) | (a' & rest & e & -> & -> & Ht)].
      * left. repeat split. by rewrite Ht, Ht0, <- app_assoc.
      * right. exists a', rest, e. repeat split.
        by rewrite Ht, Ht0, <- app_assoc.
    + rewrite (checkAsset_throws H env s a w e E).
      eexists _, (Throw e), [], []. split; [reflexivity|]. simpl.
      rewrite app_nil_r. repeat split; [constructor|].
      right. exists a, page, e. repeat split.
      unfold clientCalls. by rewrite !List.filter_app.
Qed.

(** The loop never lets an exception out: [findUnlinkedAssets] returns its
    list whenever it returns. *)
Lemma iteration_never_throws (s : St H) :
  ∃ s1, iteration H env s = (s1, Ok tt).
Proof.
  unfold iteration, try_catch.
  destruct (fetchBatch H env s) as [s1 [[]|e]]; [by eexists|].
  unfold onError, mbind, M_bind, console_error, emit, set_hasMoreAssets.
  simpl. by eexists.
Qed.

Lemma while_iteration_returns fuel (s s' : St H) r :
  while fuel hasMoreAssets (iteration H env) s = Some (s', r) →
  r = Ok tt ∧ hasMoreAssets s' = false.
Proof.
  revert s. induction fuel as [|fuel IH]; intros s; [done|].
  cbn [while]. destruct (hasMoreAssets s) eqn:Hmore.
  - destruct (iteration_never_throws s) as [s1 ->]. apply IH.
  - intros [= <- <-]. done.
Qed.

Lemma findUnlinkedAssets_returns fuel (w : World H) tr s' r :
  findUnlinkedAssets H env fuel w tr = Some (s', r) →
  r = Ok (unlinkedAssets s').
Proof.
  unfold findUnlinkedAssets.
  destruct (while fuel _ _ _) as [[s1 r1]|] eqn:Hloop; [|done].
  apply while_iteration_returns in Hloop as [-> _].
  by intros [= <- <-].
Qed.

Lemma logsOnly_console_log line : logsOnly (console_log H line).
Proof. intros s. by eexists _, [line]. Qed.

Lemma logsOnly_bind (m k : M H unit) :
  logsOnly m → logsOnly k → logsOnly (m ;; k).
Proof.
  intros Hm Hk s. destruct (Hm s) as (s1 & l1 & Hrun1 & Hw1 & Ht1).
  destruct (Hk s1) as (s2 & l2 & Hrun2 & Hw2 & Ht2).
  exists s2, (l1 ++ l2). unfold mbind, M_bind. rewrite Hrun1, Hrun2.
  split; [done|]. split; [congruence|].
  by rewrite Ht2, Ht1, map_app, app_assoc.
Qed.

Lemma logsOnly_for_of lines : logsOnly (for_of lines (console_log H)).
Proof.
  induction lines as [|line lines IH].
  - intros s. exists s, []. simpl. by rewrite app_nil_r.
  - apply logsOnly_bind; [apply logsOnly_console_log | exact IH].
Qed.

Lemma logsOnly_printSummary filename out :
  logsOnly (printSummary H filename out).
Proof.
  unfold printSummary.
  repeat (apply logsOnly_bind; [apply logsOnly_console_log|]).
  destruct (0 <? length out)%nat.
  - repeat (apply logsOnly_bind; [apply logsOnly_console_log|]).
    apply logsOnly_bind; [apply logsOnly_for_of|].
    repeat (apply logsOnly_bind; [apply logsOnly_console_log|]).
    apply logsOnly_console_log.
  - apply logsOnly_console_log.
Qed.

Lemma clientCalls_console lines : clientCalls (map ConsoleLog lines) = [].
Proof. by induction lines. Qed.

(** [main] writes what the scan returned, right after the scan. *)
Lemma main_writes_the_scan fuel (w : World H) s' out :
  findUnlinkedAssets H env fuel w (banner env) = Some (s', Ok out) →
  ∃ o filename r rest,
    main H env fuel w = Some o
    ∧ events o = trace s' ++ WriteFile filename out r :: rest
    ∧ clientCalls rest = []
    ∧ (r = Ok tt → exitCode o = 0)
    ∧ (∀ e, r = Throw e → exitCode o = 1).
Proof.
  intros Hscan. unfold main. rewrite Hscan. unfold report.
  unfold mbind at 1, M_bind at 1, now at 1.
  set (filename := "unlinked-assets-" +:+ _ +:+ ".json").
  unfold mbind, M_bind, writeFile.
  destruct (fs_writeFile H (world s') filename out) as [w1 [[]|e]] eqn:Ew.
  - match goal with
    | |- context [printSummary H filename out ?st] =>
        destruct (logsOnly_printSummary filename out st)
          as (s2 & lines & -> & _ & Ht)
    end.
    eexists _, filename, (Ok tt), (map ConsoleLog lines).
    split; [reflexivity|]. simpl. rewrite Ht. simpl.
    split; [by rewrite <- app_assoc|].
    split; [apply clientCalls_console|]. split; [done|]. discriminate.
  - eexists _, filename, (Throw e), [ConsoleError _].
    split; [reflexivity|]. simpl.
    split; [by rewrite <- app_assoc|].
    split; [reflexivity|]. split; [discriminate|]. done.
Qed.

End Raising.

(** C3 as stated fails: with the three assets "0", "1", "2" on one page,
    nothing accumulated before that page, asset "0" unlinked and the check
    of asset "1" raising, the scan returns the entry of asset "0": the
    result is not the list accumulated before the failing batch. *)
Lemma failing_batch_keeps_its_entries :
  let h := Fixture.host (Fixture.assets 3) (Fixture.refs_of 3)
             (λ a, String.eqb a "1") in
  let s := enter h tt
             (banner Fixture.env
              ++ [ConsoleLog "⏳ Starting to scan for unlinked assets..."]) in
  ∃ s1 s' out,
    fetchBatch h Fixture.env s = (s1, Throw "503")
    ∧ findUnlinkedAssets h Fixture.env 2 tt (banner Fixture.env)
      = Some (s', Ok out)
    ∧ unlinkedAssets s = []
    ∧ map Report.id out = ["0"]
    ∧ out ≠ unlinkedAssets s.
Proof.
  intros h s. eexists _, _, _.
  split; [vm_compute; reflexivity|].
  split; [vm_compute; reflexivity|].
  split; [reflexivity|]. split; [reflexivity|]. discriminate.
Qed.

(** C3, amended.  When the listing or a reference check raises during a
    batch, the loop ends with that turn: the failing call is the last call
    of the client.  The scan returns what was accumulated up to the error:
    the entries of the earlier batches and, when a reference check raised,
    also the entries of the assets of the failing batch that were checked
    before it.  [main] then writes the list the scan returned and, when the
    file is written, ends with code 0. *)
Theorem scan_stops_on_error (H : Host) (env : Env) (s s1 : St H)
    (e : string) (fuel : nat) :
  hasMoreAssets s = true →
  fetchBatch H env s = (s1, Throw e) →
  (2 ≤ fuel)%nat →
  ∃ s2 before failing,
    while fuel hasMoreAssets (iteration H env) s = Some (s2, Ok tt)
    ∧ hasMoreAssets s2 = false
    ∧ unlinkedAssets s2 = unlinkedAssets s1
    ∧ clientCalls (trace s2) = clientCalls (trace s) ++ before ++ [failing]
    ∧ ((before = []
        ∧ failing = GetAssets (skip s) limit "sys.createdAt" (Throw e)
        ∧ unlinkedAssets s2 = unlinkedAssets s)
       ∨ (∃ page checked totals a rest,
            page = checked ++ a :: rest
            ∧ length totals = length checked
            ∧ before = GetAssets (skip s) limit "sys.createdAt" (Ok page)
                       :: answeredCalls checked totals
            ∧ failing = GetEntries (sys_id a) 1 (Throw e)
            ∧ unlinkedAssets s2
              = unlinkedAssets s
                ++ map (reportEntry H env) (answeredZero checked totals)))
    ∧ (∀ fuel' w' s' out,
         findUnlinkedAssets H env fuel' w' (banner env) = Some (s', Ok out) →
         ∃ o filename r rest,
           main H env fuel' w' = Some o
           ∧ events o = trace s' ++ WriteFile filename out r :: rest
           ∧ clientCalls rest = []
           ∧ (r = Ok tt → exitCode o = 0)).
Proof.
  intros Hmore Hbatch Hfuel.
  destruct fuel as [|[|fuel]]; [lia | lia |].
  pose proof (iteration_caught H env s s1 e Hbatch) as Hiter.
  set (s2 := {| world := world s1;
                trace := trace s1
                  ++ [ConsoleError ("Error fetching or processing assets: " +:+ e)];
                unlinkedAssets := unlinkedAssets s1; skip := skip s1;
                hasMoreAssets := false |}) in *.
  assert (Hloop : while (S (S fuel)) hasMoreAssets (iteration H env) s
                  = Some (s2, Ok tt)).
  { cbn [while]. by rewrite Hmore, Hiter. }
  assert (Hcalls2 : clientCalls (trace s2) = clientCalls (trace s1)).
  { unfold s2. simpl. unfold clientCalls. rewrite List.filter_app. simpl.
    by rewrite app_nil_r. }
  assert (Hmain : ∀ fuel' w' s' out,
    findUnlinkedAssets H env fuel' w' (banner env) = Some (s', Ok out) →
    ∃ o filename r rest,
      main H env fuel' w' = Some o
      ∧ events o = trace s' ++ WriteFile filename out r :: rest
      ∧ clientCalls rest = []
      ∧ (r = Ok tt → exitCode o = 0)).
  { intros fuel' w' s' out Hscan.
    destruct (main_writes_the_scan H env fuel' w' s' out Hscan)
      as (o & filename & r & rest & Hm & Hev & Hrest & Hok & _).
    by exists o, filename, r, rest. }
  destruct (client_getAssets H (client env) (world s) (skip s) limit
              "sys.createdAt") as [w [page | e']] eqn:E.
  - destruct page as [|a0 page0] eqn:Epage.
    { destruct (fetchBatch_empty H env s w E) as (s0 & Hrun & _).
      rewrite Hrun in Hbatch. discriminate. }
    rewrite <- Epage in *.
    assert (Hne : page ≠ []) by (rewrite Epage; discriminate).
    pose proof (fetchBatch_page H env s w page E Hne) as Hrun.
    destruct (for_of_general H env page (afterListing s w (Ok page)))
      as (s0 & r & checked & totals & Hfor & Hlen & _ & Hu & _ & _ & Hcases).
    rewrite Hfor, Hbatch in Hrun.
    destruct Hcases as [(-> & _ & _) | (a & rest & e0 & -> & Hpage & Ht)].
    { discriminate. }
    injection Hrun as <- <-.
    exists s2, (GetAssets (skip s) limit "sys.createdAt" (Ok page)
                :: answeredCalls checked totals),
      (GetEntries (sys_id a) 1 (Throw e)).
    split; [exact Hloop|]. split; [reflexivity|]. split; [reflexivity|].
    split.
    { rewrite Hcalls2, Ht. unfold afterListing. simpl.
      unfold clientCalls at 1. rewrite !List.filter_app. simpl.
      fold (clientCalls (trace s)). by rewrite <- app_assoc. }
    split; [|exact Hmain].
    right. exists page, checked, totals, a, rest.
    repeat split; try done; unfold s2; simpl; by rewrite Hu.
  - destruct (fetchBatch_listing_throws H env s w e' E)
      as (s0 & Hrun & Hu & _ & _ & Ht).
    rewrite Hrun in Hbatch. injection Hbatch as <- <-.
    exists s2, [], (GetAssets (skip s) limit "sys.createdAt" (Throw e')).
    split; [exact Hloop|]. split; [reflexivity|]. split; [reflexivity|].
    split; [by rewrite Hcalls2, Ht|].
    split; [|exact Hmain].
    left. repeat split. unfold s2. simpl. exact Hu.
Qed.

(** ** The scan against any client *)

Section AnyClient.
Context (H : Host) (env : Env).

Lemma referenceChecks_app tr1 tr2 :
  referenceChecks (tr1 ++ tr2) = referenceChecks tr1 ++ referenceChecks tr2.
Proof. apply omap_app. Qed.

Lemma zeroChecked_app c1 c2 :
  zeroChecked (c1 ++ c2) = zeroChecked c1 ++ zeroChecked c2.
Proof. unfold zeroChecked. by rewrite List.filter_app, map_app. Qed.

Lemma zeroChecked_answered checked : ∀ totals,
  zeroChecked (referenceChecks (answeredCalls checked totals))
  = map sys_id (answeredZero checked totals).
Proof.
  induction checked as [|a checked IH]; intros [|total totals]; try done.
  unfold answeredCalls, answeredZero, zeroChecked in *. simpl.
  destruct (total =? 0); simpl; by rewrite IH.
Qed.

(** One turn of the loop, whatever the client answers.  It checks a prefix
    of the page it was given and appends the entries of the checks that
    reported zero, in the order of the checks.  The loop goes on only after
    a page of at least [limit] assets whose checks were all answered, and
    then with the offset moved by [limit]. *)
Lemma iteration_general (s : St H) :
  ∃ s1 page checked totals,
    iteration H env s = (s1, Ok tt)
    ∧ unlinkedAssets s1
      = unlinkedAssets s
        ++ map (reportEntry H env) (answeredZero checked totals)
    ∧ referenceChecks (trace s1)
      = referenceChecks (trace s)
        ++ referenceChecks (answeredCalls checked totals)
    ∧ Forall2 (answeredBy H (client env)) checked totals
    ∧ checked `prefix_of` page
    ∧ (page = []
       ∨ (client_getAssets H (client env) (world s) (skip s) limit
            "sys.createdAt").2 = Ok page)
    ∧ (hasMoreAssets s1 = false
       ∨ (hasMoreAssets s1 = hasMoreAssets s ∧ checked = page
          ∧ (limit ≤ length page)%nat
          ∧ skip s1 = (skip s + limit)%nat)).
Proof.
  assert (Hcaught : ∀ s1 e page checked totals,
    fetchBatch H env s = (s1, Throw e) →
    unlinkedAssets s1
    = unlinkedAssets s ++ map (reportEntry H env) (answeredZero checked totals) →
    referenceChecks (clientCalls (trace s1))
    = referenceChecks (clientCalls (trace s))
      ++ referenceChecks (answeredCalls checked totals) →
    Forall2 (answeredBy H (client env)) checked totals →
    checked `prefix_of` page →
    (page = []
     ∨ (client_getAssets H (client env) (world s) (skip s) limit
          "sys.createdAt").2 = Ok page) →
    ∃ s2 page checked totals,
      iteration H env s = (s2, Ok tt)
      ∧ unlinkedAssets s2
        = unlinkedAssets s
          ++ map (reportEntry H env) (answeredZero checked totals)
      ∧ referenceChecks (trace s2)
        = referenceChecks (trace s)
          ++ referenceChecks (answeredCalls checked totals)
      ∧ Forall2 (answeredBy H (client env)) checked totals
      ∧ checked `prefix_of` page
      ∧ (page = []
         ∨ (client_getAssets H (client env) (world s) (skip s) limit
              "sys.createdAt").2 = Ok page)
      ∧ (hasMoreAssets s2 = false
         ∨ (hasMoreAssets s2 = hasMoreAssets s ∧ checked = page
            ∧ (limit ≤ length page)%nat
            ∧ skip s2 = (skip s + limit)%nat))).
  { intros s1 e page checked totals Hb Hu Ht Hans Hpre Hpage.
    rewrite !referenceChecks_clientCalls in Ht.
    eexists _, page, checked, totals.
    split; [exact (iteration_caught H env s s1 e Hb)|]. simpl.
    split; [exact Hu|].
    split; [by rewrite referenceChecks_app, Ht, app_nil_r|].
    repeat split; auto. }
  destruct (client_getAssets H (client env) (world s) (skip s) limit
              "sys.createdAt") as [w [page | e]] eqn:E.
  - destruct page as [|a0 page0] eqn:Epage.
    { destruct (fetchBatch_empty H env s w E) as (s1 & Hrun & Hu & _ & Hh & Ht).
      exists s1, [], [], []. split; [by apply iteration_passed|].
      simpl. rewrite !app_nil_r. split; [exact Hu|].
      split.
      { rewrite <- referenceChecks_clientCalls, Ht, referenceChecks_app.
        simpl. by rewrite app_nil_r, referenceChecks_clientCalls. }
      repeat split; auto. }
    rewrite <- Epage in *.
    assert (Hne : page ≠ []) by (rewrite Epage; discriminate).
    pose proof (fetchBatch_page H env s w page E Hne) as Hrun.
    destruct (for_of_general H env page (afterListing s w (Ok page)))
      as (s0 & r & checked & totals & Hfor & Hlen & Hans & Hu & Hs & Hh
          & Hcases).
    rewrite Hfor in Hrun.
    assert (Hstart : clientCalls (trace (afterListing s w (Ok page)))
                     = clientCalls (trace s)
                       ++ [GetAssets (skip s) limit "sys.createdAt" (Ok page)]).
    { unfold afterListing. simpl. unfold clientCalls.
      by rewrite !List.filter_app. }
    destruct Hcases as [(-> & -> & Ht) | (a & rest & e0 & -> & Hsplit & Ht)].
    + eexists _, page, page, totals.
      split; [apply iteration_passed; exact Hrun|]. simpl.
      split; [exact Hu|].
      split.
      { rewrite <- referenceChecks_clientCalls, Ht, Hstart.
        rewrite !referenceChecks_app. simpl.
        by rewrite app_nil_r, referenceChecks_clientCalls. }
      split; [exact Hans|]. split; [done|]. split; [by right|].
      destruct (Nat.ltb_spec (length page) limit) as [|Hfull]; [by left|].
      right. rewrite Hh. simpl. repeat split; auto.
    + apply (Hcaught s0 e0 page checked totals Hrun Hu); auto.
      * rewrite Ht, Hstart, !referenceChecks_app. simpl.
        by rewrite !app_nil_r.
      * rewrite Hsplit. by eexists.
  - destruct (fetchBatch_listing_throws H env s w e E)
      as (s1 & Hrun & Hu & _ & _ & Ht).
    apply (Hcaught s1 e [] [] [] Hrun); auto; [simpl; by rewrite app_nil_r|].
    rewrite Ht, referenceChecks_app. simpl. reflexivity.
Qed.

(** The invariant of the spec: on every path, also when a batch raises, the
    output holds exactly the identifiers whose reference check reported
    zero, in the order of the checks. *)
Lemma while_reports_zero_checked fuel : ∀ (s s' : St H) r,
  map Report.id (unlinkedAssets s) = zeroChecked (referenceChecks (trace s)) →
  while fuel hasMoreAssets (iteration H env) s = Some (s', r) →
  map Report.id (unlinkedAssets s')
  = zeroChecked (referenceChecks (trace s'))
  ∧ ∃ added, unlinkedAssets s' = unlinkedAssets s ++ added.
Proof.
  induction fuel as [|fuel IH]; intros s s' r Hinv; [done|].
  cbn [while]. destruct (hasMoreAssets s).
  - destruct (iteration_general s)
      as (s1 & page & checked & totals & -> & Hu & Ht & _).
    intros Hloop. apply IH in Hloop as [Hinv' [added Happ]].
    + split; [exact Hinv'|]. rewrite Happ, Hu, <- app_assoc. eauto.
    + rewrite Hu, Ht, map_app, zeroChecked_app, Hinv, zeroChecked_answered.
      f_equal. by rewrite map_map.
  - intros [= <- <-]. split; [exact Hinv|]. exists []. by rewrite app_nil_r.
Qed.

Lemma scan_reports_zero_checked fuel (w : World H) s' r :
  findUnlinkedAssets H env fuel w (banner env) = Some (s', r) →
  r = Ok (unlinkedAssets s')
  ∧ map Report.id (unlinkedAssets s')
    = zeroChecked (referenceChecks (trace s')).
Proof.
  intros Hscan.
  split; [exact (findUnlinkedAssets_returns H env fuel w _ s' r Hscan)|].
  unfold findUnlinkedAssets in Hscan.
  destruct (while fuel _ _ _) as [[s1 r1]|] eqn:Hloop; [|done].
  apply while_reports_zero_checked in Hloop as [Hinv _]; [|reflexivity].
  destruct r1; by injection Hscan as <- <-.
Qed.

End AnyClient.

(** ** Pagination and order over a fixed repository *)

(** C2.  Over a fixed repository of any size, with the page size 100, the
    scan returns; the listing is requested at the offsets 0, 100, 200, ...
    with the limit 100; every page but the last is full, the last page is
    shorter than 100 (empty when the size is a multiple of 100) and no
    request follows it; the pages fetched, in order, are the repository:
    every asset is on exactly one page. *)
Theorem pagination_covers_every_asset (H : Host) (env : Env)
    (repo : list Asset) (refs : string → Z) (fuel : nat) (w : World H) :
  fixedRepository H repo refs →
  (length repo / limit + 2 ≤ fuel)%nat →
  ∃ s' out full last,
    findUnlinkedAssets H env fuel w (banner env) = Some (s', Ok out)
    ∧ limit = 100%nat
    ∧ assetRequests (trace s')
      = map (λ j, ((limit * j)%nat, limit, "sys.createdAt"))
            (seq 0 (length full + 1))
    ∧ pagesFetched (trace s') = full ++ [last]
    ∧ (∀ j page, (full ++ [last]) !! j = Some page →
                 page = take limit (drop (limit * j) repo))
    ∧ Forall (λ page, length page = limit) full
    ∧ (length last < limit)%nat
    ∧ concat (full ++ [last]) = repo
    ∧ length full = (length repo / limit)%nat.
Proof.
  intros Hfixed Hfuel.
  destruct (findUnlinkedAssets_fixed H env repo refs Hfixed fuel w
              (banner env) Hfuel) as (s' & Hrun & Hcalls).
  assert (HP : (0 < limit)%nat) by (unfold limit; lia).
  set (n := (length repo / limit)%nat) in *.
  exists s', (map (reportEntry H env) (unlinked refs repo)),
    (map (pageAt repo limit) (seq 0 n)), (pageAt repo limit n).
  assert (Hlen : length (map (pageAt repo limit) (seq 0 n)) = n)
    by (by rewrite length_map, length_seq).
  assert (Hpages : map (pageAt repo limit) (seq 0 n) ++ [pageAt repo limit n]
                   = map (pageAt repo limit) (seq 0 (n + 1))).
  { replace (n + 1)%nat with (S n) by lia. by rewrite seq_S, map_app. }
  split; [exact Hrun|]. split; [reflexivity|].
  rewrite Hlen.
  split.
  { rewrite <- assetRequests_clientCalls, Hcalls, clientCalls_banner.
    cbn [app]. by rewrite assetRequests_batches, map_map. }
  split.
  { rewrite <- pagesFetched_clientCalls, Hcalls, clientCalls_banner.
    cbn [app]. by rewrite pagesFetched_batches, map_map, Hpages. }
  split.
  { intros j page. rewrite Hpages, list_lookup_fmap.
    intros Hj. destruct (seq 0 (n + 1) !! j) as [j'|] eqn:Ej; [|done].
    apply lookup_seq in Ej as [-> _]. simpl in Hj. by injection Hj as <-. }
  split.
  { apply Forall_forall. intros page Hin.
    apply list_elem_of_fmap in Hin as (j & -> & Hj).
    apply elem_of_seq in Hj. apply page_full; [exact HP | lia]. }
  split; [by apply page_last|].
  split; [|reflexivity].
  rewrite Hpages. by apply pages_cover.
Qed.

(** C10.  Over a fixed repository the listing is always requested in the
    order "sys.createdAt", and the output holds the entries of the unlinked
    assets in the order in which the listing returned their assets: it is
    the listing with the linked assets left out. *)
Theorem output_in_listing_order (H : Host) (env : Env)
    (repo : list Asset) (refs : string → Z) (fuel : nat) (w : World H) :
  fixedRepository H repo refs →
  (length repo / limit + 2 ≤ fuel)%nat →
  ∃ s' out,
    findUnlinkedAssets H env fuel w (banner env) = Some (s', Ok out)
    ∧ Forall (λ q, q.2 = "sys.createdAt") (assetRequests (trace s'))
    ∧ concat (pagesFetched (trace s')) = repo
    ∧ out = map (reportEntry H env)
                (List.filter (λ a, refs (sys_id a) =? 0)
                             (concat (pagesFetched (trace s'))))
    ∧ map Report.id out
      = List.filter (λ i, refs i =? 0) (map sys_id repo)
    ∧ map Report.id out `sublist_of` map sys_id repo
    ∧ map Report.id out = zeroChecked (referenceChecks (trace s')).
Proof.
  intros Hfixed Hfuel.
  destruct (findUnlinkedAssets_fixed H env repo refs Hfixed fuel w
              (banner env) Hfuel) as (s' & Hrun & Hcalls).
  assert (HP : (0 < limit)%nat) by (unfold limit; lia).
  exists s', (map (reportEntry H env) (unlinked refs repo)).
  assert (Hpages : concat (pagesFetched (trace s')) = repo).
  { rewrite <- pagesFetched_clientCalls, Hcalls, clientCalls_banner.
    cbn [app]. rewrite pagesFetched_batches, map_map.
    exact (pages_cover repo limit HP). }
  assert (Hids : map Report.id (map (reportEntry H env) (unlinked refs repo))
                 = List.filter (λ i, refs i =? 0) (map sys_id repo)).
  { rewrite map_map.
    transitivity (map sys_id (unlinked refs repo)); [reflexivity|].
    unfold unlinked. clear.
    induction repo as [|a l IH]; [done|]. simpl.
    destruct (refs (sys_id a) =? 0); simpl; by rewrite IH. }
  split; [exact Hrun|]. split.
  { rewrite <- assetRequests_clientCalls, Hcalls, clientCalls_banner.
    cbn [app]. rewrite assetRequests_batches.
    apply Forall_forall. intros q Hq.
    by apply list_elem_of_fmap in Hq as (off & -> & _). }
  split; [exact Hpages|]. split; [by rewrite Hpages|].
  split; [exact Hids|]. split.
  - rewrite Hids. clear.
    induction (map sys_id repo) as [|i l IH]; [constructor|]. simpl.
    destruct (refs i =? 0); by constructor.
  - destruct (scan_reports_zero_checked H env fuel w s' _ Hrun) as [Hr Hinv].
    injection Hr as ->. exact Hinv.
Qed.

(** ** The scan over a repository whose client may raise *)

Lemma fixed_serves H repo refs :
  fixedRepository H repo refs → servesRepository H repo refs.
Proof.
  intros [Hlist Hrefs]. split.
  - intros c w sk lim page Hq. rewrite Hlist in Hq. by injection Hq as <-.
  - intros c w a total Hq. rewrite Hrefs in Hq. by injection Hq as <-.
Qed.

Section Serves.
Context (H : Host) (env : Env) (repo : list Asset) (refs : string → Z).
Hypothesis Hserves : servesRepository H repo refs.

Lemma answered_totals checked totals :
  Forall2 (answeredBy H (client env)) checked totals →
  totals = map (λ a, refs (sys_id a)) checked.
Proof.
  destruct Hserves as [_ Hrefs].
  induction 1 as [|a total checked totals [w Hq] _ IH]; [done|].
  simpl. by rewrite IH, (Hrefs _ _ _ _ Hq).
Qed.

Lemma answeredZero_refs checked :
  answeredZero checked (map (λ a, refs (sys_id a)) checked)
  = unlinked refs checked.
Proof.
  unfold answeredZero, unlinked.
  induction checked as [|a checked IH]; [done|]. simpl in *.
  destruct (refs (sys_id a) =? 0); simpl; [f_equal|]; exact IH.
Qed.

Lemma referenceChecks_answered_refs checked :
  referenceChecks (answeredCalls checked (map (λ a, refs (sys_id a)) checked))
  = map (checkOf refs) checked.
Proof.
  unfold answeredCalls.
  induction checked as [|a checked IH]; [done|]. simpl in *. by rewrite IH.
Qed.

(** One turn: a prefix of the rest of the repository is checked. *)
Lemma iteration_serves (s : St H) :
  ∃ s1 m,
    iteration H env s = (s1, Ok tt)
    ∧ unlinkedAssets s1
      = unlinkedAssets s
        ++ map (reportEntry H env)
               (unlinked refs (take m (drop (skip s) repo)))
    ∧ referenceChecks (trace s1)
      = referenceChecks (trace s)
        ++ map (checkOf refs) (take m (drop (skip s) repo))
    ∧ (hasMoreAssets s1 = false
       ∨ (hasMoreAssets s1 = hasMoreAssets s ∧ m = limit
          ∧ (limit ≤ length (drop (skip s) repo))%nat
          ∧ skip s1 = (skip s + limit)%nat)).
Proof.
  destruct (iteration_general H env s)
    as (s1 & page & checked & totals & Hrun & Hu & Ht & Hans & Hpre & Hpage
        & Hnext).
  apply answered_totals in Hans as ->.
  rewrite answeredZero_refs in Hu. rewrite referenceChecks_answered_refs in Ht.
  assert (Hchecked : checked = take (length checked) (drop (skip s) repo)
                     ∧ (length page ≤ limit)%nat
                     ∧ (length page ≤ length (drop (skip s) repo))%nat).
  { destruct Hpage as [-> | Hq].
    - apply prefix_nil_inv in Hpre as ->. simpl. split; [done|]. lia.
    - destruct Hserves as [Hlist _]. apply Hlist in Hq. subst page.
      destruct Hpre as [rest Hrest]. split.
      + rewrite <- (take_drop limit (drop (skip s) repo)), Hrest.
        rewrite <- app_assoc. by rewrite take_app_length.
      + rewrite length_take. lia. }
  destruct Hchecked as (Hchecked & Hle & Hle').
  exists s1, (length checked).
  split; [exact Hrun|]. rewrite <- Hchecked.
  split; [exact Hu|]. split; [exact Ht|].
  destruct Hnext as [Hstop | (Hh & -> & Hfull & Hs)]; [by left|].
  right. repeat split; auto; lia.
Qed.

Lemma while_serves k : ∀ (s : St H) fuel,
  hasMoreAssets s = true →
  (limit * k ≤ length repo - skip s < limit * (k + 1))%nat →
  (k + 2 ≤ fuel)%nat →
  ∃ s' n,
    while fuel hasMoreAssets (iteration H env) s = Some (s', Ok tt)
    ∧ unlinkedAssets s'
      = unlinkedAssets s
        ++ map (reportEntry H env)
               (unlinked refs (take n (drop (skip s) repo)))
    ∧ referenceChecks (trace s')
      = referenceChecks (trace s)
        ++ map (checkOf refs) (take n (drop (skip s) repo)).
Proof.
  assert (Hstop : ∀ (s s1 : St H) fuel,
    hasMoreAssets s = true → iteration H env s = (s1, Ok tt) →
    hasMoreAssets s1 = false →
    while (S (S fuel)) hasMoreAssets (iteration H env) s = Some (s1, Ok tt)).
  { intros s s1 fuel Hmore Hrun Hh. cbn [while].
    by rewrite Hmore, Hrun, Hh. }
  induction k as [|k IH]; intros s fuel Hmore Hlen Hfuel;
    destruct (iteration_serves s) as (s1 & m & Hrun & Hu & Ht & Hnext);
    (destruct fuel as [|[|fuel]]; [lia | lia |]).
  - destruct Hnext as [Hh | (_ & _ & Hfull & _)].
    + exists s1, m. split; [by apply Hstop|]. by split.
    + rewrite length_drop in Hfull. unfold limit in *. lia.
  - destruct Hnext as [Hh | (Hh & -> & Hfull & Hs)].
    + exists s1, m. split; [by apply Hstop|]. by split.
    + rewrite Hmore in Hh.
      destruct (IH s1 (S fuel) Hh) as (s' & n & Hloop & Hu' & Ht').
      { rewrite Hs. unfold limit in *. lia. }
      { lia. }
      exists s', (limit + n)%nat. split.
      { cbn [while]. by rewrite Hmore, Hrun. }
      rewrite Hu', Hu, Ht', Ht, Hs, <- !app_assoc, <- !map_app.
      rewrite <- unlinked_app.
      rewrite <- (drop_drop repo limit (skip s)).
      by rewrite take_take_drop.
Qed.

Lemma findUnlinkedAssets_serves fuel (w : World H) :
  (length repo / limit + 2 ≤ fuel)%nat →
  ∃ s' n,
    findUnlinkedAssets H env fuel w (banner env)
    = Some (s', Ok (map (reportEntry H env) (unlinked refs (take n repo))))
    ∧ referenceChecks (trace s') = map (checkOf refs) (take n repo).
Proof.
  intros Hfuel. unfold findUnlinkedAssets.
  set (s := enter H w _).
  destruct (while_serves (length repo / limit) s fuel)
    as (s' & n & Hloop & Hu & Ht); [reflexivity | | exact Hfuel |].
  { change (skip s) with 0%nat. rewrite Nat.sub_0_r.
    pose proof (Nat.div_mod_eq (length repo) limit) as Hdiv.
    assert (Hmod : (length repo `mod` limit < limit)%nat)
      by (apply Nat.mod_upper_bound; discriminate).
    revert Hdiv Hmod.
    generalize (length repo / limit)%nat (length repo `mod` limit)%nat.
    unfold limit. intros q r Hdiv Hmod. lia. }
  exists s', n. rewrite Hloop. simpl in Hu. rewrite Hu.
  split; [reflexivity|]. rewrite Ht. reflexivity.
Qed.

End Serves.

(** C1.  Over a repository that does not change and whose assets have
    distinct identifiers the scan returns; the reference checks answered
    are those of a prefix of the listing, one per asset; an identifier is in
    the output exactly when the check of that asset reported zero entries;
    no identifier is in the output twice.  When no call raises, the prefix
    is the whole listing: every asset without a linking entry is in the
    output, and only those. *)
Theorem unlinked_exactly_once (H : Host) (env : Env)
    (repo : list Asset) (refs : string → Z) (fuel : nat) (w : World H) :
  servesRepository H repo refs →
  NoDup (map sys_id repo) →
  (length repo / limit + 2 ≤ fuel)%nat →
  ∃ s' out n,
    findUnlinkedAssets H env fuel w (banner env) = Some (s', Ok out)
    ∧ referenceChecks (trace s') = map (checkOf refs) (take n repo)
    ∧ (∀ i, i ∈ map Report.id out
            ↔ (i, 1%nat, 0) ∈ referenceChecks (trace s'))
    ∧ NoDup (map Report.id out)
    ∧ (∀ i, i ∈ map Report.id out → i ∈ map sys_id repo)
    ∧ (fixedRepository H repo refs →
       take n repo = repo
       ∧ ∀ a, a ∈ repo →
              (sys_id a ∈ map Report.id out ↔ refs (sys_id a) = 0)).
Proof.
  intros Hserves Hnodup Hfuel.
  destruct (findUnlinkedAssets_serves H env repo refs Hserves fuel w Hfuel)
    as (s' & n & Hrun & Hchecks).
  exists s', (map (reportEntry H env) (unlinked refs (take n repo))), n.
  assert (Hids : map Report.id
                   (map (reportEntry H env) (unlinked refs (take n repo)))
                 = map sys_id (unlinked refs (take n repo)))
    by (rewrite map_map; reflexivity).
  assert (Hin : ∀ l i, i ∈ map sys_id (unlinked refs l)
                       ↔ ∃ a, a ∈ l ∧ sys_id a = i ∧ refs i = 0).
  { intros l i. rewrite list_elem_of_fmap. unfold unlinked. split.
    - intros (a & -> & Ha). apply list_elem_of_In, List.filter_In in Ha
        as [Ha H0]. apply list_elem_of_In in Ha. apply Z.eqb_eq in H0. eauto.
    - intros (a & Ha & <- & H0). exists a. split; [done|].
      apply list_elem_of_In, List.filter_In. split.
      + by apply list_elem_of_In.
      + by apply Z.eqb_eq. }
  assert (Hsub : ∀ l, map sys_id (unlinked refs l) `sublist_of` map sys_id l).
  { intros l. unfold unlinked. induction l as [|a l IH]; [constructor|].
    simpl. destruct (refs (sys_id a) =? 0); by constructor. }
  split; [exact Hrun|]. split; [exact Hchecks|]. rewrite Hids, Hchecks.
  split; [|split; [|split]].
  - intros i. rewrite Hin, list_elem_of_fmap. unfold checkOf. split.
    + intros (a & Ha & <- & H0). exists a. by rewrite H0.
    + intros (a & Heq & Ha). injection Heq as -> H0. eauto.
  - eapply sublist_NoDup; [|apply Hsub].
    eapply sublist_NoDup; [exact Hnodup|].
    rewrite fmap_take. apply sublist_take.
  - intros i Hi. eapply elem_of_sublist; [exact Hi|].
    etrans; [apply Hsub|]. rewrite fmap_take. apply sublist_take.
  - intros Hfixed.
    destruct (findUnlinkedAssets_fixed H env repo refs Hfixed fuel w
                (banner env) Hfuel) as (s1 & Hrun1 & Hcalls).
    rewrite Hrun in Hrun1. injection Hrun1 as <- Hout.
    assert (HP : (0 < limit)%nat) by (unfold limit; lia).
    assert (Hall : referenceChecks (trace s') = map (checkOf refs) repo).
    { rewrite <- referenceChecks_clientCalls, Hcalls, clientCalls_banner.
      cbn [app]. rewrite referenceChecks_batches, map_map.
      f_equal. exact (pages_cover repo limit HP). }
    assert (Hwhole : take n repo = repo).
    { apply take_ge. rewrite Hchecks in Hall.
      apply (f_equal length) in Hall.
      rewrite !length_map, length_take in Hall. lia. }
    split; [exact Hwhole|]. rewrite Hwhole.
    intros a Ha. rewrite Hin. split.
    + by intros (a' & _ & <- & H0).
    + intros H0. eauto.
Qed.

(** ** Examples *)

Example formatFileSize_examples :
  map (formatFileSize (λ _, NaN) Fixture.log)
      [ JNum (Num 1); JNum (Num 1023); JNum (Num 1024); JNum (Num 1536);
        JNum (Num 1234567); JNum (Num (1024 ^ 4)); JNum (Num (1024 ^ 5));
        JNum (Num 0); JNum (Num (-3)); JUndefined; JNull; JStr "12 kB";
        JBool true ]
  = [ "1.00 Bytes"; "1023.00 Bytes"; "1.00 KB"; "1.50 KB"; "1.18 MB";
      "1.00 TB"; "1.00 undefined"; "Unknown"; "NaN undefined"; "Unknown";
      "Unknown"; "Unknown"; "1.00 Bytes" ].
Proof. vm_compute. reflexivity. Qed.

(** The last byte counts below 1024^5.  The logarithm of 1024^5 - 4 is the
    last one below that of 1024^5; those of 1024^5 - 3, 1024^5 - 2 and
    1024^5 - 1 round to the double of the logarithm of 1024^5 itself, the
    quotient is 5, and the table has no unit for them. *)
Example formatFileSize_below_1024_5 :
  map (λ b, (floor_log1024 Fixture.log (Num b),
             formatFileSize (λ _, NaN) Fixture.log (JNum (Num b))))
      [ 1024 ^ 5 - 4; 1024 ^ 5 - 3; 1024 ^ 5 - 2; 1024 ^ 5 - 1; 1024 ^ 5 ]
  = [ (Num 4, "1024.00 TB"); (Num 5, "1.00 undefined");
      (Num 5, "1.00 undefined"); (Num 5, "1.00 undefined");
      (Num 5, "1.00 undefined") ].
Proof. vm_compute. reflexivity. Qed.

(** 0.125 is a tie and goes up; 1/1024 rounds to zero. *)
Example toFixed2_examples :
  [ toFixed2 1 8; toFixed2 1 1024; toFixed2 5 1; toFixed2 1023 1;
    toFixed2 1049 1024; toFixed2 (-1) 8 ]
  = [ "0.13"; "0.00"; "5.00"; "1023.00"; "1.02"; "-0.13" ].
Proof. vm_compute. reflexivity. Qed.

Example timestamp_example :
  strip_fraction (replace_colons "2024-01-02T03:04:05.678Z")
  = "2024-01-02T03-04-05".
Proof. reflexivity. Qed.

(** Three assets, the second one unlinked: one entry in the file, the
    summary counts one asset, the exit code is 0. *)
Example end_to_end :
  ∃ console,
    Fixture.summary (script Fixture.scenario Fixture.env 2 tt)
    = Some (0,
            [ ("unlinked-assets-2024-01-02T03-04-05.json",
               [ {| Report.id := "1";
                    Report.title := JStr "1";
                    Report.url := JStr "No URL";
                    Report.contentType := JStr "Unknown";
                    Report.fileSize := "Unknown";
                    Report.createdAt := "2020-01-01";
                    Report.updatedAt := "2020-01-02";
                    Report.contentfulUrl :=
                      "https://app.contentful.com/spaces/space1/environments/master/assets/1" |} ]) ],
            console)
    ∧ "✅ Found 1 unlinked assets." ∈ console.
Proof.
  eexists. split; [vm_compute; reflexivity|].
  apply (bool_decide_unpack _). vm_compute. exact I.
Qed.

(** Every asset linked: the file holds the empty list, the console says
    so, the exit code is 0. *)
Example nothing_unlinked :
  ∃ console,
    Fixture.summary (script Fixture.allLinked Fixture.env 2 tt)
    = Some (0, [ ("unlinked-assets-2024-01-02T03-04-05.json", []) ], console)
    ∧ "👍 No unlinked assets found. Your content is well-organized!"
      ∈ console.
Proof.
  eexists. split; [vm_compute; reflexivity|].
  apply (bool_decide_unpack _). vm_compute. exact I.
Qed.

(** Without fuel for the loop the scan has no result. *)
Example out_of_fuel :
  script Fixture.scenario Fixture.env 1 tt = None.
Proof. reflexivity. Qed.

(** The sizes of section 8 of the specification: the offsets requested for
    repositories of 0, 1, 100, 101 and 200 assets. *)
Example pagination_sizes :
  map Fixture.requestOffsets [0; 1; 100; 101; 200]%nat
  = [ Some [0]; Some [0]; Some [0; 100]; Some [0; 100]; Some [0; 100; 200] ]%nat.
Proof. vm_compute. reflexivity. Qed.

(** ** The theorems at work on a small repository *)

Lemma Fixture_fixed repo refs :
  fixedRepository (Fixture.host repo refs (λ _, false)) repo refs.
Proof. split; intros; reflexivity. Qed.

Lemma unlinked_exactly_once_witness :
  let h := Fixture.host (Fixture.assets 3) (Fixture.refs_of 3)
             (λ a, String.eqb a "2") in
  servesRepository h (Fixture.assets 3) (Fixture.refs_of 3)
  ∧ NoDup (map sys_id (Fixture.assets 3))
  ∧ (length (Fixture.assets 3) / limit + 2 ≤ 2)%nat
  ∧ ∃ s' out,
      findUnlinkedAssets h Fixture.env 2 tt (banner Fixture.env)
      = Some (s', Ok out)
      ∧ NoDup (map Report.id out).
Proof.
  intros h.
  assert (Hserves : servesRepository h (Fixture.assets 3) (Fixture.refs_of 3)).
  { split.
    - intros c w sk lim page Hq. simpl in Hq. by injection Hq as <-.
    - intros c w a total Hq. simpl in Hq.
      destruct (String.eqb a "2"); [discriminate|]. by injection Hq as <-. }
  assert (Hnodup : NoDup (map sys_id (Fixture.assets 3)))
    by (apply (bool_decide_unpack _); vm_compute; exact I).
  assert (Hfuel : (length (Fixture.assets 3) / limit + 2 ≤ 2)%nat)
    by (vm_compute; lia).
  split; [exact Hserves|]. split; [exact Hnodup|]. split; [exact Hfuel|].
  destruct (unlinked_exactly_once h Fixture.env (Fixture.assets 3)
              (Fixture.refs_of 3) 2 tt Hserves Hnodup Hfuel)
    as (s' & out & n & Hrun & _ & _ & Hnd & _).
  exists s', out. split; [exact Hrun | exact Hnd].
Defined.

Lemma pagination_covers_every_asset_witness :
  let h := Fixture.host (Fixture.assets 101) (Fixture.refs_of 101)
             (λ _, false) in
  fixedRepository h (Fixture.assets 101) (Fixture.refs_of 101)
  ∧ (length (Fixture.assets 101) / limit + 2 ≤ 3)%nat
  ∧ ∃ s' out,
      findUnlinkedAssets h Fixture.env 3 tt (banner Fixture.env)
      = Some (s', Ok out)
      ∧ concat (pagesFetched (trace s')) = Fixture.assets 101.
Proof.
  intros h.
  assert (Hfixed : fixedRepository h (Fixture.assets 101) (Fixture.refs_of 101))
    by apply Fixture_fixed.
  assert (Hfuel : (length (Fixture.assets 101) / limit + 2 ≤ 3)%nat)
    by (vm_compute; lia).
  split; [exact Hfixed|]. split; [exact Hfuel|].
  destruct (pagination_covers_every_asset h Fixture.env (Fixture.assets 101)
              (Fixture.refs_of 101) 3 tt Hfixed Hfuel)
    as (s' & out & full & last & Hrun & _ & _ & Hpages & _ & _ & _ & Hcat & _).
  exists s', out. split; [exact Hrun|]. by rewrite Hpages.
Defined.

Lemma output_in_listing_order_witness :
  let h := Fixture.host (Fixture.assets 5) (Fixture.refs_of 5) (λ _, false) in
  fixedRepository h (Fixture.assets 5) (Fixture.refs_of 5)
  ∧ (length (Fixture.assets 5) / limit + 2 ≤ 2)%nat
  ∧ ∃ s' out,
      findUnlinkedAssets h Fixture.env 2 tt (banner Fixture.env)
      = Some (s', Ok out)
      ∧ map Report.id out
        = List.filter (λ i, Fixture.refs_of 5 i =? 0)
                      (map sys_id (Fixture.assets 5)).
Proof.
  intros h.
  assert (Hfixed : fixedRepository h (Fixture.assets 5) (Fixture.refs_of 5))
    by apply Fixture_fixed.
  assert (Hfuel : (length (Fixture.assets 5) / limit + 2 ≤ 2)%nat)
    by (vm_compute; lia).
  split; [exact Hfixed|]. split; [exact Hfuel|].
  destruct (output_in_listing_order h Fixture.env (Fixture.assets 5)
              (Fixture.refs_of 5) 2 tt Hfixed Hfuel)
    as (s' & out & Hrun & _ & _ & _ & Hids & _).
  exists s', out. split; [exact Hrun | exact Hids].
Defined.

Lemma scan_stops_on_error_witness :
  let h := Fixture.host (Fixture.assets 3) (Fixture.refs_of 3)
             (λ a, String.eqb a "1") in
  let s := enter h tt (banner Fixture.env) in
  let s1 := (fetchBatch h Fixture.env s).1 in
  hasMoreAssets s = true
  ∧ fetchBatch h Fixture.env s = (s1, Throw "503")
  ∧ (2 ≤ 2)%nat
  ∧ ∃ s2,
      while 2 hasMoreAssets (iteration h Fixture.env) s = Some (s2, Ok tt)
      ∧ unlinkedAssets s2 = unlinkedAssets s1.
Proof.
  intros h s s1.
  assert (Hmore : hasMoreAssets s = true) by reflexivity.
  assert (Hbatch : fetchBatch h Fixture.env s = (s1, Throw "503"))
    by (vm_compute; reflexivity).
  assert (Hfuel : (2 ≤ 2)%nat) by lia.
  split; [exact Hmore|]. split; [exact Hbatch|]. split; [exact Hfuel|].
  destruct (scan_stops_on_error h Fixture.env s s1 "503" 2 Hmore Hbatch Hfuel)
    as (s2 & before & failing & Hloop & _ & Hu & _).
  exists s2. split; [exact Hloop | exact Hu].
Defined.

Lemma unlinked_entry_title_witness :
  let h := Fixture.host [] (λ _, 0) (λ _, false) in
  let s := enter h tt [] in
  let a := {| sys_id := "logo"; sys_createdAt := JNull;
              sys_updatedAt := JNull;
              fields_title := JObj {[ "en-US" := JStr "Logo" ]};
              fields_file := JUndefined |} in
  (client_getEntries h (client Fixture.env) (world s) (sys_id a) 1).2 = Ok 0
  ∧ ∃ e, unlinkedAssets (checkAsset h Fixture.env a s).1
         = unlinkedAssets s ++ [e]
         ∧ Report.title e = JStr "Logo".
Proof.
  intros h s a.
  assert (Hq : (client_getEntries h (client Fixture.env) (world s)
                  (sys_id a) 1).2 = Ok 0) by reflexivity.
  split; [exact Hq|].
  destruct (unlinked_entry_title h Fixture.env s a Hq) as (e & Hu & _ & Ht).
  exists e. split; [exact Hu|]. rewrite Ht. reflexivity.
Defined.

Lemma deep_link_witness :
  let h := Fixture.host [] (λ _, 0) (λ _, false) in
  SPACE_ID Fixture.env = Some "space1"
  ∧ Report.contentfulUrl (reportEntry h Fixture.env (Fixture.asset "a1"))
    = "https://app.contentful.com/spaces/" +:+ "space1" +:+ "/environments/"
      +:+ environment (client Fixture.env) +:+ "/assets/"
      +:+ sys_id (Fixture.asset "a1").
Proof.
  intros h.
  assert (HS : SPACE_ID Fixture.env = Some "space1") by reflexivity.
  split; [exact HS|].
  exact (proj1 (proj2 (deep_link h Fixture.env "space1" (Fixture.asset "a1") HS))).
Defined.

Lemma missing_configuration_witness :
  let h := Fixture.host [] (λ _, 0) (λ _, false) in
  let env := {| SPACE_ID := None; ENVIRONMENT := None;
                ACCESS_TOKEN := Some "token" |} in
  (SPACE_ID env = None ∨ ACCESS_TOKEN env = None)
  ∧ script h env 0 tt
    = Some {| events :=
                [ConsoleError "Missing required environment variables. Please check your .env file."];
              exitCode := 1 |}.
Proof.
  intros h env.
  assert (Hmissing : SPACE_ID env = None ∨ ACCESS_TOKEN env = None)
    by (left; reflexivity).
  split; [exact Hmissing|].
  exact (proj1 (missing_configuration h env 0 tt Hmissing)).
Defined.

(** ** The history of a scan, whatever the client answers *)

Section History.
Context (H : Host) (env : Env).

(** The calls of one turn of the loop: one listing request at the current
    offset, then the checks of a prefix of the page, the last of which may
    have raised.  The loop goes on only after a full page whose checks were
    all answered. *)
Lemma iteration_calls (s : St H) :
  ∃ s1 r page checked totals failed,
    iteration H env s = (s1, Ok tt)
    ∧ clientCalls (trace s1)
      = clientCalls (trace s)
        ++ GetAssets (skip s) limit "sys.createdAt" r
           :: answeredCalls checked totals ++ failed
    ∧ (r = Ok page ∨ (page = [] ∧ ∃ e, r = Throw e))
    ∧ length totals = length checked
    ∧ (failed = [] ∧ (checked = page ∨ hasMoreAssets s1 = false)
         ∧ checked `prefix_of` page
       ∨ ∃ a rest e, page = checked ++ a :: rest
                     ∧ failed = [GetEntries (sys_id a) 1 (Throw e)])
    ∧ (hasMoreAssets s1 = false
       ∨ (hasMoreAssets s1 = hasMoreAssets s ∧ r = Ok page ∧ checked = page
          ∧ failed = [] ∧ fullPage page
          ∧ skip s1 = (skip s + limit)%nat)).
Proof.
  assert (Hcaught : ∀ s1 e, fetchBatch H env s = (s1, Throw e) →
    ∃ s2, iteration H env s = (s2, Ok tt)
          ∧ clientCalls (trace s2) = clientCalls (trace s1)
          ∧ hasMoreAssets s2 = false).
  { intros s1 e Hb. eexists.
    split; [exact (iteration_caught H env s s1 e Hb)|]. simpl.
    rewrite clientCalls_app. simpl. by rewrite app_nil_r. }
  destruct (client_getAssets H (client env) (world s) (skip s) limit
              "sys.createdAt") as [w [page | e]] eqn:E.
  - destruct page as [|a0 page0] eqn:Epage.
    { destruct (fetchBatch_empty H env s w E)
        as (s1 & Hrun & _ & _ & Hh & Ht).
      exists s1, (Ok []), [], [], [], [].
      split; [by apply iteration_passed|]. split; [exact Ht|].
      split; [by left|]. split; [done|].
      split; [left; repeat split; auto|]. by left. }
    rewrite <- Epage in *.
    assert (Hne : page ≠ []) by (rewrite Epage; discriminate).
    pose proof (fetchBatch_page H env s w page E Hne) as Hrun.
    destruct (for_of_general H env page (afterListing s w (Ok page)))
      as (s0 & r & checked & totals & Hfor & Hlen & _ & _ & _ & Hh & Hcases).
    rewrite Hfor in Hrun.
    assert (Hstart : clientCalls (trace (afterListing s w (Ok page)))
                     = clientCalls (trace s)
                       ++ [GetAssets (skip s) limit "sys.createdAt" (Ok page)]).
    { unfold afterListing. simpl. rewrite !clientCalls_app. simpl.
      by rewrite ?app_nil_r. }
    destruct Hcases as [(-> & -> & Ht) | (a & rest & e0 & -> & Hsplit & Ht)].
    + eexists _, (Ok page), page, page, totals, [].
      split; [apply iteration_passed; exact Hrun|]. simpl.
      split; [by rewrite Ht, Hstart, <- app_assoc, app_nil_r|].
      split; [by left|]. split; [exact Hlen|].
      split; [left; repeat split; auto|].
      destruct (Nat.ltb_spec (length page) limit) as [|Hfull]; [by left|].
      right. rewrite Hh. simpl. repeat split; auto.
    + destruct (Hcaught s0 e0 Hrun) as (s2 & Hiter & Ht2 & Hh2).
      exists s2, (Ok page), page, checked, totals,
        [GetEntries (sys_id a) 1 (Throw e0)].
      split; [exact Hiter|].
      split; [by rewrite Ht2, Ht, Hstart, <- !app_assoc|].
      split; [by left|]. split; [exact Hlen|].
      split; [right; eauto|]. by left.
  - destruct (fetchBatch_listing_throws H env s w e E)
      as (s1 & Hrun & _ & _ & _ & Ht).
    destruct (Hcaught s1 e Hrun) as (s2 & Hiter & Ht2 & Hh2).
    exists s2, (Throw e), [], [], [], [].
    split; [exact Hiter|]. split; [by rewrite Ht2, Ht|].
    split; [right; eauto|]. split; [done|].
    split; [left; repeat split; auto|]. by left.
Qed.

(** A property of the frame that every turn keeps holds when the loop
    ends. *)
Lemma while_invariant (I : St H → Prop) fuel : ∀ (s s' : St H) r,
  (∀ s0 s1, I s0 → hasMoreAssets s0 = true →
            iteration H env s0 = (s1, Ok tt) → I s1) →
  I s →
  while fuel hasMoreAssets (iteration H env) s = Some (s', r) →
  I s' ∧ hasMoreAssets s' = false.
Proof.
  induction fuel as [|fuel IH]; intros s s' r Hstep Hs; [done|].
  cbn [while]. destruct (hasMoreAssets s) eqn:Hmore.
  - destruct (iteration_never_throws H env s) as [s1 Hrun]. rewrite Hrun.
    apply IH; [exact Hstep|]. by apply (Hstep s s1).
  - by intros [= <- <-].
Qed.

End History.

(** ** Reading more of a trace *)

Lemma assetRequests_app tr1 tr2 :
  assetRequests (tr1 ++ tr2) = assetRequests tr1 ++ assetRequests tr2.
Proof. apply omap_app. Qed.

Lemma pagesFetched_app tr1 tr2 :
  pagesFetched (tr1 ++ tr2) = pagesFetched tr1 ++ pagesFetched tr2.
Proof. apply omap_app. Qed.

Lemma checksAsked_app tr1 tr2 :
  checksAsked (tr1 ++ tr2) = checksAsked tr1 ++ checksAsked tr2.
Proof. apply omap_app. Qed.

Lemma checksAsked_clientCalls tr :
  checksAsked (clientCalls tr) = checksAsked tr.
Proof.
  induction tr as [|e tr IH]; [done|].
  destruct e; simpl; by rewrite ?IH.
Qed.

Lemma assetRequests_answered checked totals :
  assetRequests (answeredCalls checked totals) = [].
Proof.
  unfold answeredCalls. revert totals.
  induction checked as [|a checked IH]; intros [|t totals]; try done.
  simpl. apply IH.
Qed.

Lemma pagesFetched_answered checked totals :
  pagesFetched (answeredCalls checked totals) = [].
Proof.
  unfold answeredCalls. revert totals.
  induction checked as [|a checked IH]; intros [|t totals]; try done.
  simpl. apply IH.
Qed.

Lemma checksAsked_answered checked : ∀ totals,
  length totals = length checked →
  checksAsked (answeredCalls checked totals) = map sys_id checked.
Proof.
  unfold answeredCalls.
  induction checked as [|a checked IH]; intros [|t totals] Hlen; try done.
  simpl in *. f_equal. apply IH. lia.
Qed.

(** X2.  Whatever the client answers, when the scan returns it has made at
    least one listing request, and its listing requests are exactly the
    offsets 0, 100, 200, ... in this order, each with limit 100 and order
    "sys.createdAt": no offset is skipped, repeated or retried. *)
Theorem requests_at_page_offsets (H : Host) (env : Env) (fuel : nat)
    (w : World H) (s' : St H) (r : Res (list Report.Entry)) :
  findUnlinkedAssets H env fuel w (banner env) = Some (s', r) →
  ∃ k, (1 ≤ k)%nat
       ∧ assetRequests (trace s') = map requestAt (seq 0 k)
       ∧ map (λ q, q.1.1) (assetRequests (trace s'))
         = map (λ j, (100 * j)%nat) (seq 0 k).
Proof.
  intros Hscan. unfold findUnlinkedAssets in Hscan.
  destruct (while fuel _ _ _) as [[s1 r1]|] eqn:Hloop; [|done].
  assert (Hs1 : s1 = s') by (destruct r1; by injection Hscan as <- _).
  subst s1. clear Hscan.
  apply (while_invariant H env
    (λ s, ∃ k, assetRequests (trace s) = map requestAt (seq 0 k)
               ∧ (hasMoreAssets s = true → skip s = (limit * k)%nat)
               ∧ (hasMoreAssets s = false → (1 ≤ k)%nat))) in Hloop.
  - destruct Hloop as [(k & Hreq & _ & Hk) Hend].
    exists k. split; [by apply Hk|]. split; [exact Hreq|].
    rewrite Hreq, map_map. reflexivity.
  - intros s0 s1 (k & Hreq & Hskip & _) Hmore Hrun.
    destruct (iteration_calls H env s0)
      as (s2 & r0 & page & checked & totals & failed & Hrun' & Hcalls & _
          & _ & Hfailed & Hnext).
    rewrite Hrun in Hrun'. injection Hrun' as <-.
    exists (S k). split.
    + rewrite <- assetRequests_clientCalls, Hcalls, assetRequests_app.
      rewrite assetRequests_clientCalls, Hreq, seq_S, map_app.
      f_equal. change (GetAssets ?a ?b ?c ?d :: ?l)
        with ([GetAssets a b c d] ++ l).
      rewrite !assetRequests_app, assetRequests_answered.
      rewrite (Hskip Hmore). simpl.
      destruct Hfailed as [(-> & _) | (a & rest & e & _ & ->)]; reflexivity.
    + split; [|lia]. intros Hmore1.
      destruct Hnext as [Hstop | (_ & _ & _ & _ & _ & Hs)]; [congruence|].
      rewrite Hs, (Hskip Hmore). lia.
  - exists 0%nat. split; [reflexivity|]. split; [reflexivity|]. done.
Qed.

(** X3.  Whatever the client answers, the reference checks the scan asked
    for are, in order, the identifiers of a prefix of the assets the
    listing returned: no asset is checked that the listing did not return,
    none is checked before an earlier one, and none twice for one
    appearance in the listing. *)
Theorem checks_follow_listing (H : Host) (env : Env) (fuel : nat)
    (w : World H) (s' : St H) (r : Res (list Report.Entry)) :
  findUnlinkedAssets H env fuel w (banner env) = Some (s', r) →
  checksAsked (trace s')
    `prefix_of` map sys_id (concat (pagesFetched (trace s')))
  ∧ map (λ c, c.1.1) (referenceChecks (trace s'))
    `sublist_of` checksAsked (trace s').
Proof.
  intros Hscan. split.
  - unfold findUnlinkedAssets in Hscan.
    destruct (while fuel _ _ _) as [[s1 r1]|] eqn:Hloop; [|done].
    assert (Hs1 : s1 = s') by (destruct r1; by injection Hscan as <- _).
    subst s1. clear Hscan.
    apply (while_invariant H env
      (λ s, checksAsked (trace s)
              `prefix_of` map sys_id (concat (pagesFetched (trace s)))
            ∧ (hasMoreAssets s = true →
               checksAsked (trace s)
               = map sys_id (concat (pagesFetched (trace s)))))) in Hloop.
    + by destruct Hloop as [[Hpre _] _].
    + intros s0 s1 [_ Heq] Hmore Hrun. specialize (Heq Hmore).
      destruct (iteration_calls H env s0)
        as (s2 & r0 & page & checked & totals & failed & Hrun' & Hcalls
            & Hr & Hlen & Hfailed & Hnext).
      rewrite Hrun in Hrun'. injection Hrun' as <-.
      assert (Hpages : pagesFetched (trace s1)
                       = pagesFetched (trace s0) ++ pagesFetched
                           [GetAssets (skip s0) limit "sys.createdAt" r0]).
      { rewrite <- pagesFetched_clientCalls, Hcalls, pagesFetched_app.
        rewrite pagesFetched_clientCalls. f_equal.
        change (GetAssets ?a ?b ?c ?d :: ?l)
          with ([GetAssets a b c d] ++ l).
        rewrite !pagesFetched_app, pagesFetched_answered.
        destruct Hfailed as [(-> & _) | (a & rest & e & _ & ->)];
          simpl; by rewrite ?app_nil_r. }
      assert (Hasked : checksAsked (trace s1)
                       = checksAsked (trace s0) ++ map sys_id checked
                         ++ checksAsked failed).
      { rewrite <- checksAsked_clientCalls, Hcalls, checksAsked_app.
        rewrite checksAsked_clientCalls. f_equal.
        change (GetAssets ?a ?b ?c ?d :: ?l)
          with ([GetAssets a b c d] ++ l).
        rewrite !checksAsked_app, (checksAsked_answered _ _ Hlen).
        reflexivity. }
      assert (Hconcat : map sys_id (concat (pagesFetched (trace s1)))
                        = map sys_id (concat (pagesFetched (trace s0)))
                          ++ map sys_id page).
      { rewrite Hpages, concat_app, map_app. f_equal.
        destruct Hr as [-> | (-> & e & ->)]; simpl; by rewrite ?app_nil_r. }
      rewrite Hasked, Hconcat, Heq. split.
      * apply prefix_app.
        destruct Hfailed as [(-> & _ & Hpre) | (a & rest & e & -> & ->)].
        -- rewrite app_nil_r. destruct Hpre as [rest ->].
           rewrite map_app. by eexists.
        -- simpl. rewrite map_app. simpl.
           exists (map sys_id rest). by rewrite <- app_assoc.
      * intros Hmore1.
        destruct Hnext as [Hstop | (_ & _ & -> & -> & _)]; [congruence|].
        by rewrite app_nil_r.
    + split; [by exists []|]. reflexivity.
  - clear. induction (trace s') as [|e tr IH]; [constructor|].
    destruct e as [| | | a l [t|e] |]; simpl; try done; by constructor.
Qed.

(** X4.  Whatever the client answers, the scan goes on to a further page
    only after a page of at least 100 assets: of the pages the listing
    returned, every one but the last is full. *)
Theorem only_last_page_short (H : Host) (env : Env) (fuel : nat)
    (w : World H) (s' : St H) (r : Res (list Report.Entry)) :
  findUnlinkedAssets H env fuel w (banner env) = Some (s', r) →
  ∃ init last,
    pagesFetched (trace s') = init ++ last
    ∧ Forall fullPage init
    ∧ (length last ≤ 1)%nat.
Proof.
  intros Hscan. unfold findUnlinkedAssets in Hscan.
  destruct (while fuel _ _ _) as [[s1 r1]|] eqn:Hloop; [|done].
  assert (Hs1 : s1 = s') by (destruct r1; by injection Hscan as <- _).
  subst s1. clear Hscan.
  apply (while_invariant H env
    (λ s, ∃ init last,
            pagesFetched (trace s) = init ++ last
            ∧ Forall fullPage init ∧ (length last ≤ 1)%nat
            ∧ (hasMoreAssets s = true → last = []))) in Hloop.
  - destruct Hloop as [(init & last & Hp & Hf & Hl & _) _]. eauto.
  - intros s0 s1 (init & last & Hp & Hf & _ & Hlast) Hmore Hrun.
    rewrite (Hlast Hmore), app_nil_r in Hp.
    destruct (iteration_calls H env s0)
      as (s2 & r0 & page & checked & totals & failed & Hrun' & Hcalls
          & Hr & Hlen & Hfailed & Hnext).
    rewrite Hrun in Hrun'. injection Hrun' as <-.
    assert (Hpages : pagesFetched (trace s1)
                     = init ++ pagesFetched
                         [GetAssets (skip s0) limit "sys.createdAt" r0]).
    { rewrite <- pagesFetched_clientCalls, Hcalls, pagesFetched_app.
      rewrite pagesFetched_clientCalls, Hp. f_equal.
      change (GetAssets ?a ?b ?c ?d :: ?l)
        with ([GetAssets a b c d] ++ l).
      rewrite !pagesFetched_app, pagesFetched_answered.
      destruct Hfailed as [(-> & _) | (a & rest & e & _ & ->)];
        simpl; by rewrite ?app_nil_r. }
    destruct Hnext as [Hstop | (_ & -> & _ & _ & Hfull & _)].
    + exists init, (pagesFetched
                      [GetAssets (skip s0) limit "sys.createdAt" r0]).
      split; [exact Hpages|]. split; [exact Hf|].
      split; [destruct r0; simpl; lia|]. congruence.
    + exists (init ++ [page]), []. rewrite app_nil_r.
      split; [exact Hpages|].
      split; [apply Forall_app; split; [exact Hf | by constructor]|].
      split; [simpl; lia | done].
  - exists [], []. repeat split; auto.
Qed.

(** X1.  Whatever the client answers and whether or not a batch raised,
    a scan that returns returns its accumulator and never an exception;
    the identifiers in it are, in order, exactly those whose reference
    check was answered with a total of zero, so there are never more
    entries than answered checks. *)
Theorem output_is_zero_checked (H : Host) (env : Env) (fuel : nat)
    (w : World H) (s' : St H) (r : Res (list Report.Entry)) :
  findUnlinkedAssets H env fuel w (banner env) = Some (s', r) →
  r = Ok (unlinkedAssets s')
  ∧ hasMoreAssets s' = false
  ∧ map Report.id (unlinkedAssets s')
    = zeroChecked (referenceChecks (trace s'))
  ∧ (∀ i, i ∈ map Report.id (unlinkedAssets s')
          ↔ ∃ l, (i, l, 0) ∈ referenceChecks (trace s'))
  ∧ (length (unlinkedAssets s') ≤ length (referenceChecks (trace s')))%nat.
Proof.
  intros Hscan.
  destruct (scan_reports_zero_checked H env fuel w s' r Hscan) as [Hr Hinv].
  split; [exact Hr|]. split.
  { unfold findUnlinkedAssets in Hscan.
    destruct (while fuel _ _ _) as [[s1 r1]|] eqn:Hloop; [|done].
    apply while_iteration_returns in Hloop as [-> Hh].
    by injection Hscan as <- _. }
  split; [exact Hinv|]. split.
  - intros i. rewrite Hinv. unfold zeroChecked.
    rewrite list_elem_of_fmap. split.
    + intros ([[a l] t] & -> & Hin).
      apply list_elem_of_In, List.filter_In in Hin as [Hin H0].
      simpl in *. apply Z.eqb_eq in H0. subst t.
      exists l. by apply list_elem_of_In.
    + intros (l & Hin). exists (i, l, 0). split; [done|].
      apply list_elem_of_In, List.filter_In. split; [|done].
      by apply list_elem_of_In.
  - rewrite <- (length_map Report.id), Hinv. unfold zeroChecked.
    rewrite length_map. apply List.filter_length_le.
Qed.

(** ** A listing that never ends *)

Section Endless.
Context (H : Host) (env : Env).
Hypothesis Hfull : ∀ c w sk,
  ∃ page, (client_getAssets H c w sk limit "sys.createdAt").2 = Ok page
          ∧ fullPage page.
Hypothesis Hanswered : ∀ c w a,
  ∃ total, (client_getEntries H c w a 1).2 = Ok total.

Lemma for_of_answered page : ∀ s : St H,
  ∃ s1, for_of page (checkAsset H env) s = (s1, Ok tt)
        ∧ hasMoreAssets s1 = hasMoreAssets s.
Proof.
  induction page as [|a page IH]; intros s; [by exists s|].
  rewrite for_of_cons.
  destruct (Hanswered (client env) (world s) (sys_id a)) as [total Hq].
  destruct (client_getEntries H (client env) (world s) (sys_id a) 1)
    as [w r] eqn:E. simpl in Hq. subst r.
  destruct (Z.eq_dec total 0) as [-> | Hne].
  - rewrite (checkAsset_unlinked H env s a w E).
    destruct (IH {| world := w;
                    trace := trace s ++ [GetEntries (sys_id a) 1 (Ok 0)]
                      ++ [ConsoleLog ("✓ Found unlinked asset: "
                            +:+ template (Report.title (reportEntry H env a)))];
                    unlinkedAssets := unlinkedAssets s ++ [reportEntry H env a];
                    skip := skip s; hasMoreAssets := hasMoreAssets s |})
      as (s1 & -> & Hh). by exists s1.
  - rewrite (checkAsset_linked H env s a w total E Hne).
    destruct (IH {| world := w;
                    trace := trace s ++ [GetEntries (sys_id a) 1 (Ok total)];
                    unlinkedAssets := unlinkedAssets s;
                    skip := skip s; hasMoreAssets := hasMoreAssets s |})
      as (s1 & -> & Hh). by exists s1.
Qed.

Lemma iteration_goes_on (s : St H) :
  ∃ s1, iteration H env s = (s1, Ok tt)
        ∧ hasMoreAssets s1 = hasMoreAssets s.
Proof.
  destruct (Hfull (client env) (world s) (skip s)) as (page & Hq & Hlen).
  destruct (client_getAssets H (client env) (world s) (skip s) limit
              "sys.createdAt") as [w r] eqn:E. simpl in Hq. subst r.
  assert (Hne : page ≠ []).
  { intros ->. unfold fullPage, limit in Hlen. simpl in Hlen. lia. }
  pose proof (fetchBatch_page H env s w page E Hne) as Hrun.
  destruct (for_of_answered page (afterListing s w (Ok page)))
    as (s0 & Hfor & Hh).
  rewrite Hfor in Hrun.
  eexists. split; [apply iteration_passed; exact Hrun|]. simpl.
  destruct (Nat.ltb_spec (length page) limit) as [Hshort|_]; [|exact Hh].
  unfold fullPage in Hlen. lia.
Qed.

Lemma while_never_ends fuel : ∀ s : St H,
  hasMoreAssets s = true →
  while fuel hasMoreAssets (iteration H env) s = None.
Proof.
  induction fuel as [|fuel IH]; intros s Hmore; [done|].
  cbn [while]. rewrite Hmore.
  destruct (iteration_goes_on s) as (s1 & -> & Hh).
  apply IH. congruence.
Qed.

End Endless.

(** X5.  The loop has no bound of its own: against a client whose listing
    answers every request with a full page and whose reference checks are
    all answered, the scan does not return, whatever the fuel. *)
Theorem endless_listing_never_returns (H : Host) (env : Env) (fuel : nat)
    (w : World H) (tr : list Event) :
  (∀ c w sk,
     ∃ page, (client_getAssets H c w sk limit "sys.createdAt").2 = Ok page
             ∧ fullPage page) →
  (∀ c w a, ∃ total, (client_getEntries H c w a 1).2 = Ok total) →
  findUnlinkedAssets H env fuel w tr = None
  ∧ main H env fuel w = None.
Proof.
  intros Hfull Hanswered.
  assert (Hscan : ∀ tr', findUnlinkedAssets H env fuel w tr' = None).
  { intros tr'. unfold findUnlinkedAssets.
    by rewrite (while_never_ends H env Hfull Hanswered fuel). }
  split; [apply Hscan|]. unfold main. by rewrite Hscan.
Qed.

Lemma endless_listing_never_returns_witness :
  (∀ c w sk,
     ∃ page, (client_getAssets Fixture.endless c w sk limit
                "sys.createdAt").2 = Ok page ∧ fullPage page)
  ∧ (∀ c w a,
       ∃ total, (client_getEntries Fixture.endless c w a 1).2 = Ok total)
  ∧ findUnlinkedAssets Fixture.endless Fixture.env 7 tt [] = None.
Proof.
  assert (Hfull : ∀ c w sk,
     ∃ page, (client_getAssets Fixture.endless c w sk limit
                "sys.createdAt").2 = Ok page ∧ fullPage page).
  { intros c w sk. eexists. split; [reflexivity|].
    unfold fullPage. by rewrite length_replicate. }
  assert (Hanswered : ∀ c w a,
     ∃ total, (client_getEntries Fixture.endless c w a 1).2 = Ok total)
    by (intros; by eexists).
  split; [exact Hfull|]. split; [exact Hanswered|].
  exact (proj1 (endless_listing_never_returns Fixture.endless Fixture.env 7 tt
                  [] Hfull Hanswered)).
Defined.

(** ** The cost of a scan *)

Lemma length_batches repo refs offs :
  length (flat_map (batchCalls repo refs) offs)
  = (length offs
     + length (concat (map (λ off, take limit (drop off repo)) offs)))%nat.
Proof.
  induction offs as [|off offs IH]; [done|].
  cbn [flat_map map concat]. rewrite !length_app, IH.
  unfold batchCalls. simpl. rewrite length_map. lia.
Qed.

(** X6.  On a fixed repository of N assets the scan makes N/100 + 1 listing
    requests and N reference checks, one per asset: N + N/100 + 1 calls of
    the client in all. *)
Theorem calls_on_fixed_repository (H : Host) (env : Env)
    (repo : list Asset) (refs : string → Z) (fuel : nat) (w : World H) :
  fixedRepository H repo refs →
  (length repo / limit + 2 ≤ fuel)%nat →
  ∃ s' out,
    findUnlinkedAssets H env fuel w (banner env) = Some (s', Ok out)
    ∧ length (assetRequests (trace s')) = (length repo / limit + 1)%nat
    ∧ length (checksAsked (trace s')) = length repo
    ∧ length (clientCalls (trace s'))
      = (length repo + length repo / limit + 1)%nat.
Proof.
  intros Hfixed Hfuel.
  destruct (findUnlinkedAssets_fixed H env repo refs Hfixed fuel w
              (banner env) Hfuel) as (s' & Hrun & Hcalls).
  assert (HP : (0 < limit)%nat) by (unfold limit; lia).
  exists s', (map (reportEntry H env) (unlinked refs repo)).
  split; [exact Hrun|]. rewrite clientCalls_banner in Hcalls.
  cbn [app] in Hcalls.
  assert (Hcover : concat (map (λ off, take limit (drop off repo))
                     (map (λ j, (limit * j)%nat)
                          (seq 0 (length repo / limit + 1)))) = repo).
  { rewrite map_map. exact (pages_cover repo limit HP). }
  split; [|split].
  - rewrite <- assetRequests_clientCalls, Hcalls, assetRequests_batches.
    by rewrite !length_map, length_seq.
  - rewrite <- checksAsked_clientCalls, Hcalls.
    transitivity (length (map (λ c : string * nat * Z, c.1.1)
                            (referenceChecks
                               (flat_map (batchCalls repo refs)
                                  (map (λ j, (limit * j)%nat)
                                     (seq 0 (length repo / limit + 1))))))).
    + f_equal. generalize (map (λ j, (limit * j)%nat)
                             (seq 0 (length repo / limit + 1))).
      intros offs. induction offs as [|off offs IH]; [done|].
      cbn [flat_map]. unfold referenceChecks in *.
      rewrite checksAsked_app, omap_app, map_app, IH. f_equal.
      unfold batchCalls. simpl.
      induction (take limit (drop off repo)) as [|a l IHl]; [done|].
      simpl. by rewrite IHl.
    + rewrite referenceChecks_batches, Hcover. by rewrite !length_map.
  - rewrite Hcalls, length_batches, Hcover.
    rewrite !length_map, length_seq. lia.
Qed.

Lemma calls_on_fixed_repository_witness :
  let h := Fixture.host (Fixture.assets 101) (Fixture.refs_of 101)
             (λ _, false) in
  fixedRepository h (Fixture.assets 101) (Fixture.refs_of 101)
  ∧ (length (Fixture.assets 101) / limit + 2 ≤ 3)%nat
  ∧ ∃ s' out,
      findUnlinkedAssets h Fixture.env 3 tt (banner Fixture.env)
      = Some (s', Ok out)
      ∧ length (clientCalls (trace s')) = 103%nat.
Proof.
  intros h.
  assert (Hfixed : fixedRepository h (Fixture.assets 101) (Fixture.refs_of 101))
    by apply Fixture_fixed.
  assert (Hfuel : (length (Fixture.assets 101) / limit + 2 ≤ 3)%nat)
    by (vm_compute; lia).
  split; [exact Hfixed|]. split; [exact Hfuel|].
  destruct (calls_on_fixed_repository h Fixture.env (Fixture.assets 101)
              (Fixture.refs_of 101) 3 tt Hfixed Hfuel)
    as (s' & out & Hrun & _ & _ & Hn).
  exists s', out. split; [exact Hrun|]. rewrite Hn. reflexivity.
Defined.

(** ** The report file *)

Lemma reportsWritten_app tr1 tr2 :
  reportsWritten (tr1 ++ tr2) = reportsWritten tr1 ++ reportsWritten tr2.
Proof. apply omap_app. Qed.

Lemma reportsWritten_console lines :
  reportsWritten (map ConsoleLog lines) = [].
Proof. by induction lines. Qed.

Lemma reportsWritten_elem filename data r tr :
  WriteFile filename data r ∈ tr → (filename, data) ∈ reportsWritten tr.
Proof.
  induction tr as [|e tr IH]; intros Hin; [by apply elem_of_nil in Hin|].
  apply elem_of_cons in Hin as [<- | Hin].
  - simpl. by left.
  - destruct e; simpl; try (by apply IH). right. by apply IH.
Qed.

Section Writes.
Context (H : Host) (env : Env).

Lemma checkAsset_writes_nothing a (s : St H) :
  reportsWritten (trace (checkAsset H env a s).1) = reportsWritten (trace s).
Proof.
  destruct (client_getEntries H (client env) (world s) (sys_id a) 1)
    as [w [total | e]] eqn:E.
  - destruct (Z.eq_dec total 0) as [-> | Hne].
    + rewrite (checkAsset_unlinked H env s a w E). simpl.
      rewrite !reportsWritten_app. simpl. by rewrite app_nil_r.
    + rewrite (checkAsset_linked H env s a w total E Hne). simpl.
      rewrite !reportsWritten_app. simpl. by rewrite app_nil_r.
  - rewrite (checkAsset_throws H env s a w e E). simpl.
    rewrite !reportsWritten_app. simpl. by rewrite app_nil_r.
Qed.

Lemma for_of_writes_nothing page : ∀ s : St H,
  reportsWritten (trace (for_of page (checkAsset H env) s).1)
  = reportsWritten (trace s).
Proof.
  induction page as [|a page IH]; intros s; [done|].
  rewrite for_of_cons.
  pose proof (checkAsset_writes_nothing a s) as Ha.
  destruct (checkAsset H env a s) as [s1 [[]|e]]; simpl in *.
  - by rewrite IH.
  - exact Ha.
Qed.

Lemma iteration_writes_nothing (s : St H) :
  reportsWritten (trace (iteration H env s).1) = reportsWritten (trace s).
Proof.
  unfold iteration, try_catch, fetchBatch, onError. unfold_monad.
  cbn -[for_of limit Nat.ltb Nat.eqb].
  destruct (client_getAssets H (client env) (world s) (skip s) limit
              "sys.createdAt") as [w [page | e]] eqn:E;
    cbn -[for_of limit Nat.ltb Nat.eqb].
  - destruct (length page =? 0)%nat; cbn -[for_of limit Nat.ltb Nat.eqb].
    + rewrite !reportsWritten_app. simpl. by rewrite !app_nil_r.
    + match goal with
      | |- context [for_of ?p ?f ?st] =>
          pose proof (for_of_writes_nothing p st) as Hfor;
          destruct (for_of p f st) as [s0 [[]|e]]
      end; cbn -[for_of limit Nat.ltb Nat.eqb] in *.
      * destruct (length page <? limit)%nat; simpl; rewrite Hfor;
          rewrite !reportsWritten_app; simpl; by rewrite !app_nil_r.
      * rewrite !reportsWritten_app, Hfor, !reportsWritten_app. simpl.
        by rewrite !app_nil_r.
  - rewrite !reportsWritten_app. simpl. by rewrite !app_nil_r.
Qed.

(** The scan writes no file. *)
Lemma scan_writes_nothing fuel (w : World H) tr s' r :
  findUnlinkedAssets H env fuel w tr = Some (s', r) →
  reportsWritten (trace s') = reportsWritten tr.
Proof.
  intros Hscan. unfold findUnlinkedAssets in Hscan.
  destruct (while fuel _ _ _) as [[s1 r1]|] eqn:Hloop; [|done].
  assert (Hs1 : s1 = s') by (destruct r1; by injection Hscan as <- _).
  subst s1. clear Hscan.
  apply (while_invariant H env
    (λ s, reportsWritten (trace s) = reportsWritten tr)) in Hloop.
  - by destruct Hloop.
  - intros s0 s1 Hinv _ Hrun.
    pose proof (iteration_writes_nothing s0) as Hw.
    rewrite Hrun in Hw. simpl in Hw. by rewrite Hw.
  - simpl. rewrite reportsWritten_app. simpl. by rewrite app_nil_r.
Qed.

(** The first lines of the summary. *)
Lemma printSummary_lines filename out (s : St H) :
  ∃ s1 more,
    printSummary H filename out s = (s1, Ok tt)
    ∧ trace s1
      = trace s
        ++ map ConsoleLog
             ([ "";
                "✅ Found " +:+ pretty (length out) +:+ " unlinked assets.";
                "💾 Report saved to " +:+ filename;
                "" ] ++ more)
    ∧ (out = [] →
       more = ["👍 No unlinked assets found. Your content is well-organized!"]).
Proof.
  unfold printSummary.
  set (tail := if (0 <? length out)%nat then _ else _).
  assert (Htail : logsOnly tail ∧
    (out = [] → ∀ s0 : St H, ∃ s1, tail s0 = (s1, Ok tt) ∧ trace s1
       = trace s0 ++ [ConsoleLog
           "👍 No unlinked assets found. Your content is well-organized!"])).
  { unfold tail. split.
    - destruct (0 <? length out)%nat.
      + repeat (apply logsOnly_bind; [apply logsOnly_console_log|]).
        apply logsOnly_bind; [apply logsOnly_for_of|].
        repeat (apply logsOnly_bind; [apply logsOnly_console_log|]).
        apply logsOnly_console_log.
      + apply logsOnly_console_log.
    - intros -> s0. simpl. by eexists. }
  destruct Htail as [Hlogs Hempty].
  unfold mbind, M_bind, console_log, emit. simpl.
  match goal with
  | |- context [tail ?st] => set (s4 := st)
  end.
  assert (Hcases : out = [] ∨ out ≠ []) by (destruct out; auto).
  destruct Hcases as [Hnil | Hne].
  - destruct (Hempty Hnil s4) as (s1 & Hrun & Ht).
    exists s1, ["👍 No unlinked assets found. Your content is well-organized!"].
    split; [exact Hrun|]. split; [|done]. rewrite Ht. unfold s4. simpl.
    by rewrite <- !app_assoc.
  - destruct (Hlogs s4) as (s1 & more & Hrun & _ & Ht).
    exists s1, more. split; [exact Hrun|]. split; [|done].
    rewrite Ht. unfold s4. simpl.
    by rewrite <- !app_assoc.
Qed.

(** The whole of [main] after the scan. *)
Lemma main_report fuel (w : World H) s' out :
  findUnlinkedAssets H env fuel w (banner env) = Some (s', Ok out) →
  let filename :=
    "unlinked-assets-"
    +:+ strip_fraction (replace_colons (now_toISOString H (world s')))
    +:+ ".json" in
  ∃ o,
    main H env fuel w = Some o
    ∧ ((∃ more,
          (fs_writeFile H (world s') filename out).2 = Ok tt
          ∧ events o
            = trace s' ++ WriteFile filename out (Ok tt)
              :: map ConsoleLog
                   ([ "";
                      "✅ Found " +:+ pretty (length out)
                        +:+ " unlinked assets.";
                      "💾 Report saved to " +:+ filename;
                      "" ] ++ more)
          ∧ (out = [] →
             more = ["👍 No unlinked assets found. Your content is well-organized!"])
          ∧ exitCode o = 0)
       ∨ (∃ e,
            (fs_writeFile H (world s') filename out).2 = Throw e
            ∧ events o
              = trace s'
                ++ [ WriteFile filename out (Throw e);
                     ConsoleError ("❌ Error running the script: " +:+ e) ]
            ∧ exitCode o = 1)).
Proof.
  intros Hscan filename. unfold main. rewrite Hscan. unfold report.
  unfold mbind at 1, M_bind at 1, now at 1. fold filename.
  unfold mbind, M_bind, writeFile.
  destruct (fs_writeFile H (world s') filename out) as [w1 [[]|e]] eqn:Ew.
  - match goal with
    | |- context [printSummary H filename out ?st] =>
        destruct (printSummary_lines filename out st)
          as (s2 & more & -> & Ht & Hempty)
    end.
    eexists. split; [reflexivity|]. left. exists more.
    split; [reflexivity|]. simpl. rewrite Ht. simpl.
    split; [by rewrite <- app_assoc|]. by split.
  - eexists. split; [reflexivity|]. right. exists e.
    split; [reflexivity|]. simpl. split; [by rewrite <- app_assoc|done].
Qed.

End Writes.

(** ** The name of the report *)

Lemma occurs_append c a b : occurs c (a +:+ b) = occurs c a || occurs c b.
Proof.
  induction a as [|c' a IH]; [done|].
  simpl. rewrite IH.
  by rewrite orb_assoc.
Qed.

Lemma occurs_replace_colons s : occurs ":" (replace_colons s) = false.
Proof.
  induction s as [|c s IH]; [done|].
  cbn [replace_colons occurs]. rewrite IH, orb_false_r.
  destruct (Ascii.eqb c ":") eqn:Ec; [reflexivity|].
  by rewrite Ascii.eqb_sym, Ec.
Qed.

Lemma strip_fraction_prefix s : ∃ rest, s = strip_fraction s +:+ rest.
Proof.
  induction s as [|c s [rest IH]]; [by exists ""|]. simpl.
  destruct (Ascii.eqb c "." && negb (is_empty s)).
  - by eexists.
  - exists rest.
    change (String c s = String c (strip_fraction s +:+ rest)). by f_equal.
Qed.

Lemma occurs_strip_fraction c s :
  occurs c s = false → occurs c (strip_fraction s) = false.
Proof.
  intros Hs. destruct (strip_fraction_prefix s) as [rest Hrest].
  rewrite Hrest, occurs_append in Hs. by apply orb_false_elim in Hs as [? _].
Qed.

Lemma replace_colons_length s :
  String.length (replace_colons s) = String.length s.
Proof. induction s as [|c s IH]; [done|]. simpl. by rewrite IH. Qed.

(** X8.  A run of [main] that ends has attempted exactly one file: its data
    is the list the scan returned, and its name is "unlinked-assets-", then
    a prefix of the clock's text with every colon turned into a dash, then
    ".json"; whatever the clock says, the name holds no colon. *)
Theorem one_report_per_run (H : Host) (env : Env) (fuel : nat) (w : World H)
    (o : Outcome) :
  main H env fuel w = Some o →
  ∃ s' out stamp rest,
    findUnlinkedAssets H env fuel w (banner env) = Some (s', Ok out)
    ∧ reportsWritten (events o)
      = [("unlinked-assets-" +:+ stamp +:+ ".json", out)]
    ∧ replace_colons (now_toISOString H (world s')) = stamp +:+ rest
    ∧ occurs ":" ("unlinked-assets-" +:+ stamp +:+ ".json") = false.
Proof.
  intros Hmain.
  destruct (findUnlinkedAssets H env fuel w (banner env))
    as [[s' r]|] eqn:Hscan; [|by unfold main in Hmain; rewrite Hscan in Hmain].
  pose proof (findUnlinkedAssets_returns H env fuel w _ s' r Hscan) as ->.
  pose proof (scan_writes_nothing H env fuel w _ s' _ Hscan) as Hnone.
  destruct (strip_fraction_prefix
              (replace_colons (now_toISOString H (world s')))) as [rest Hrest].
  exists s', (unlinkedAssets s'),
    (strip_fraction (replace_colons (now_toISOString H (world s')))), rest.
  split; [reflexivity|].
  destruct (main_report H env fuel w s' _ Hscan) as (o' & Hmain' & Hcases).
  rewrite Hmain in Hmain'. injection Hmain' as <-.
  split; [|split; [exact Hrest|]].
  - destruct Hcases as [(more & _ & -> & _) | (e & _ & -> & _)];
      rewrite reportsWritten_app, Hnone; simpl;
      by rewrite ?reportsWritten_console.
  - rewrite !occurs_append, occurs_strip_fraction
      by apply occurs_replace_colons. reflexivity.
Qed.

Lemma one_report_per_run_witness :
  ∃ o,
    main Fixture.scenario Fixture.env 2 tt = Some o
    ∧ ∃ name data,
        reportsWritten (events o) = [(name, data)]
        ∧ occurs ":" name = false.
Proof.
  destruct (main Fixture.scenario Fixture.env 2 tt) as [o|] eqn:Hmain;
    [|vm_compute in Hmain; discriminate].
  exists o. split; [reflexivity|].
  destruct (one_report_per_run Fixture.scenario Fixture.env 2 tt o Hmain)
    as (s' & out & stamp & rest & _ & Hrep & _ & Hocc).
  eexists _, _. split; [exact Hrep | exact Hocc].
Defined.

(** X9.  The exit code of a run of [main] that ends is 0 or 1, and it is 1
    exactly when writing the report raised; an error in a batch of the
    scan never changes the exit code.  When the write raises, the error is
    the last thing printed: no summary follows. *)
Theorem exit_code_follows_the_write (H : Host) (env : Env) (fuel : nat)
    (w : World H) (o : Outcome) :
  main H env fuel w = Some o →
  (exitCode o = 0 ∨ exitCode o = 1)
  ∧ (exitCode o = 0 ↔ ∃ f d, WriteFile f d (Ok tt) ∈ events o)
  ∧ (exitCode o = 1 ↔ ∃ f d e, WriteFile f d (Throw e) ∈ events o)
  ∧ (exitCode o = 1 →
     ∃ tr f d e,
       events o
       = tr ++ [ WriteFile f d (Throw e);
                 ConsoleError ("❌ Error running the script: " +:+ e) ]).
Proof.
  intros Hmain.
  destruct (findUnlinkedAssets H env fuel w (banner env))
    as [[s' r]|] eqn:Hscan; [|by unfold main in Hmain; rewrite Hscan in Hmain].
  pose proof (findUnlinkedAssets_returns H env fuel w _ s' r Hscan) as ->.
  pose proof (scan_writes_nothing H env fuel w _ s' _ Hscan) as Hnone.
  assert (Hscanfree : ∀ f d r, WriteFile f d r ∈ trace s' → False).
  { intros f d r Hin. apply reportsWritten_elem in Hin.
    rewrite Hnone in Hin. simpl in Hin. by apply elem_of_nil in Hin. }
  assert (Hlog : ∀ f d r lines, WriteFile f d r ∈ map ConsoleLog lines → False).
  { intros f d r lines Hin. by apply list_elem_of_fmap in Hin as (l & ? & _). }
  destruct (main_report H env fuel w s' _ Hscan) as (o' & Hmain' & Hcases).
  rewrite Hmain in Hmain'. injection Hmain' as <-.
  destruct Hcases as [(more & _ & Hev & _ & Hcode) | (e & _ & Hev & Hcode)].
  - split; [by left|]. rewrite Hcode. split; [|split].
    + split; [|done]. intros _. eexists _, _. rewrite Hev.
      apply elem_of_app. right. by left.
    + split; [done|]. intros (f & d & e & Hin). exfalso.
      rewrite Hev in Hin. apply elem_of_app in Hin as [Hin | Hin].
      * by apply Hscanfree in Hin.
      * apply elem_of_cons in Hin as [Heq | Hin]; [done|].
        by apply Hlog in Hin.
    + done.
  - split; [by right|]. rewrite Hcode. split; [|split].
    + split; [done|]. intros (f & d & Hin). exfalso.
      rewrite Hev in Hin. apply elem_of_app in Hin as [Hin | Hin].
      * by apply Hscanfree in Hin.
      * apply elem_of_cons in Hin as [Heq | Hin]; [done|].
        apply elem_of_cons in Hin as [Heq | Hin]; [done|].
        by apply elem_of_nil in Hin.
    + split; [|done]. intros _. eexists _, _, e. rewrite Hev.
      apply elem_of_app. right. by left.
    + intros _. by eexists _, _, _, e.
Qed.

Lemma exit_code_follows_the_write_witness :
  ∃ o,
    main Fixture.readOnly Fixture.env 2 tt = Some o
    ∧ exitCode o = 1
    ∧ ∃ f d e, WriteFile f d (Throw e) ∈ events o.
Proof.
  destruct (main Fixture.readOnly Fixture.env 2 tt) as [o|] eqn:Hmain;
    [|vm_compute in Hmain; discriminate].
  exists o. split; [reflexivity|].
  destruct (exit_code_follows_the_write Fixture.readOnly Fixture.env 2 tt o
              Hmain) as (_ & _ & Hthrown & _).
  assert (Hcode : exitCode o = 1).
  { vm_compute in Hmain. injection Hmain as <-. reflexivity. }
  split; [exact Hcode|]. apply Hthrown, Hcode.
Defined.

(** X7.  When the very first listing request raises, the run is
    indistinguishable from a clean one but for one error line: the scan
    makes no further call, an empty report is written, the console says
    that no unlinked assets were found, and the exit code is 0. *)
Theorem outage_reports_nothing (H : Host) (env : Env) (fuel : nat)
    (w w' : World H) (e : string) :
  client_getAssets H (client env) w 0 limit "sys.createdAt" = (w', Throw e) →
  (2 ≤ fuel)%nat →
  let filename :=
    "unlinked-assets-"
    +:+ strip_fraction (replace_colons (now_toISOString H w')) +:+ ".json" in
  (fs_writeFile H w' filename []).2 = Ok tt →
  ∃ o,
    main H env fuel w = Some o
    ∧ exitCode o = 0
    ∧ events o
      = banner env
        ++ [ ConsoleLog "⏳ Starting to scan for unlinked assets...";
             ConsoleLog "Fetching assets (skip: 0, limit: 100)...";
             GetAssets 0 100 "sys.createdAt" (Throw e);
             ConsoleError ("Error fetching or processing assets: " +:+ e);
             WriteFile filename [] (Ok tt);
             ConsoleLog "";
             ConsoleLog "✅ Found 0 unlinked assets.";
             ConsoleLog ("💾 Report saved to " +:+ filename);
             ConsoleLog "";
             ConsoleLog "👍 No unlinked assets found. Your content is well-organized!" ].
Proof.
  intros Hq Hfuel filename Hwrite.
  destruct fuel as [|[|fuel]]; [lia | lia |].
  set (s := enter H w
              (banner env
               ++ [ConsoleLog "⏳ Starting to scan for unlinked assets..."])).
  assert (Hbatch : fetchBatch H env s
    = ({| world := w';
          trace := trace s
                   ++ [ConsoleLog "Fetching assets (skip: 0, limit: 100)..."]
                   ++ [GetAssets 0 100 "sys.createdAt" (Throw e)];
          unlinkedAssets := []; skip := 0%nat; hasMoreAssets := true |},
       Throw e)).
  { unfold fetchBatch. unfold_monad. cbn -[limit]. rewrite Hq. cbn.
    reflexivity. }
  pose proof (iteration_caught H env s _ e Hbatch) as Hiter. simpl in Hiter.
  assert (Hscan : findUnlinkedAssets H env (S (S fuel)) w (banner env)
    = Some ({| world := w';
               trace := (trace s
                   ++ [ConsoleLog "Fetching assets (skip: 0, limit: 100)..."]
                   ++ [GetAssets 0 100 "sys.createdAt" (Throw e)])
                   ++ [ConsoleError
                         ("Error fetching or processing assets: " +:+ e)];
               unlinkedAssets := []; skip := 0%nat;
               hasMoreAssets := false |}, Ok [])).
  { unfold findUnlinkedAssets. fold s. cbn [while].
    change (hasMoreAssets s) with true. cbv iota. by rewrite Hiter. }
  destruct (main_report H env (S (S fuel)) w _ _ Hscan)
    as (o & Hmain & Hcases).
  exists o. split; [exact Hmain|].
  simpl in Hcases. fold filename in Hcases.
  destruct Hcases as [(more & _ & Hev & Hmore & Hcode) | (e' & Hw & _)];
    [|by rewrite Hwrite in Hw].
  split; [exact Hcode|]. rewrite Hev, (Hmore eq_refl). unfold s. simpl.
  rewrite <- ?app_assoc. reflexivity.
Qed.

Lemma outage_reports_nothing_witness :
  client_getAssets Fixture.outage (client Fixture.env) tt 0 limit
    "sys.createdAt" = (tt, Throw "ECONNRESET")
  ∧ (2 ≤ 2)%nat
  ∧ (fs_writeFile Fixture.outage tt
       "unlinked-assets-2024-01-02T03-04-05.json" []).2 = Ok tt
  ∧ ∃ o, main Fixture.outage Fixture.env 2 tt = Some o ∧ exitCode o = 0.
Proof.
  assert (Hq : client_getAssets Fixture.outage (client Fixture.env) tt 0 limit
                 "sys.createdAt" = (tt, Throw "ECONNRESET")) by reflexivity.
  assert (Hfuel : (2 ≤ 2)%nat) by lia.
  assert (Hw : (fs_writeFile Fixture.outage tt
       "unlinked-assets-2024-01-02T03-04-05.json" []).2 = Ok tt)
    by reflexivity.
  split; [exact Hq|]. split; [exact Hfuel|]. split; [exact Hw|].
  destruct (outage_reports_nothing Fixture.outage Fixture.env 2 tt tt
              "ECONNRESET" Hq Hfuel Hw) as (o & Hmain & Hcode & _).
  exists o. split; [exact Hmain | exact Hcode].
Defined.

(** ** The branch for zero bytes *)

Lemma occurs_toFixed2 num den : occurs "." (toFixed2 num den) = true.
Proof.
  unfold toFixed2. rewrite !occurs_append.
  change (occurs "." ".") with true. by rewrite !orb_true_r.
Qed.

(** X10.  The formatter never answers "0 Bytes", whatever the byte count,
    the logarithm of the engine and its reading of strings: the only value
    that passes the test [bytes === 0] on line 39 is stopped by the guard
    on line 36, and every other answer is "Unknown", starts with "NaN" or
    holds a decimal point. *)
Theorem formatFileSize_never_0_Bytes
    (s2n : string → Number) (Math_log : Z → positive * positive)
    (v : JsVal) :
  formatFileSize s2n Math_log v ≠ "0 Bytes"
  ∧ (strict_eq_zero v = true → formatFileSize s2n Math_log v = "Unknown").
Proof.
  split.
  - unfold formatFileSize.
    destruct (negb (truthy v) || isNaN s2n v) eqn:Hguard; [discriminate|].
    destruct (strict_eq_zero v) eqn:Hzero.
    { destruct v as [| | |[|z]| |]; try discriminate.
      simpl in Hzero, Hguard. by rewrite Hzero in Hguard. }
    cbv zeta. unfold div_pow1024_toFixed2.
    destruct (ToNumber s2n v) as [|b]; [discriminate|].
    destruct (floor_log1024 Math_log (Num b)) as [|k]; [discriminate|].
    intros Heq. apply (f_equal (occurs ".")) in Heq.
    rewrite occurs_append in Heq.
    destruct (k <? 0); by rewrite occurs_toFixed2 in Heq.
  - intros Hzero. apply formatFileSize_falsy.
    destruct v as [| | |[|z]| |]; try discriminate.
    simpl in *. by rewrite Hzero.
Qed.

(** ** The theorems at concrete runs *)

Lemma output_is_zero_checked_witness :
  ∃ s' r,
    findUnlinkedAssets Fixture.scenario Fixture.env 2 tt (banner Fixture.env)
    = Some (s', r)
    ∧ r = Ok (unlinkedAssets s')
    ∧ map Report.id (unlinkedAssets s')
      = zeroChecked (referenceChecks (trace s')).
Proof.
  destruct (findUnlinkedAssets Fixture.scenario Fixture.env 2 tt
              (banner Fixture.env)) as [[s' r]|] eqn:Hscan;
    [|vm_compute in Hscan; discriminate].
  exists s', r. split; [reflexivity|].
  destruct (output_is_zero_checked Fixture.scenario Fixture.env 2 tt s' r
              Hscan) as (Hr & _ & Hids & _).
  split; [exact Hr | exact Hids].
Defined.

Lemma requests_at_page_offsets_witness :
  ∃ s' r,
    findUnlinkedAssets
      (Fixture.host (Fixture.assets 250) (λ _, 1) (λ _, false))
      Fixture.env 4 tt (banner Fixture.env) = Some (s', r)
    ∧ ∃ k, (1 ≤ k)%nat
           ∧ map (λ q, q.1.1) (assetRequests (trace s'))
             = map (λ j, (100 * j)%nat) (seq 0 k).
Proof.
  assert (Hruns :
    match findUnlinkedAssets
            (Fixture.host (Fixture.assets 250) (λ _, 1) (λ _, false))
            Fixture.env 4 tt (banner Fixture.env)
    with Some _ => true | None => false end = true)
    by (vm_compute; reflexivity).
  destruct (findUnlinkedAssets
              (Fixture.host (Fixture.assets 250) (λ _, 1) (λ _, false))
              Fixture.env 4 tt (banner Fixture.env))
    as [[s' r]|] eqn:Hscan; [|discriminate Hruns].
  exists s', r. split; [reflexivity|].
  destruct (requests_at_page_offsets
              (Fixture.host (Fixture.assets 250) (λ _, 1) (λ _, false))
              Fixture.env 4 tt s' r Hscan)
    as (k & Hk & _ & Hoffsets).
  exists k. split; [exact Hk | exact Hoffsets].
Defined.

Lemma checks_follow_listing_witness :
  ∃ s' r,
    findUnlinkedAssets
      (Fixture.host (Fixture.assets 5) (λ _, 1) (λ i, String.eqb i "3"))
      Fixture.env 2 tt (banner Fixture.env) = Some (s', r)
    ∧ checksAsked (trace s')
        `prefix_of` map sys_id (concat (pagesFetched (trace s'))).
Proof.
  assert (Hruns :
    match findUnlinkedAssets
            (Fixture.host (Fixture.assets 5) (λ _, 1)
               (λ i, String.eqb i "3"))
            Fixture.env 2 tt (banner Fixture.env)
    with Some _ => true | None => false end = true)
    by (vm_compute; reflexivity).
  destruct (findUnlinkedAssets
              (Fixture.host (Fixture.assets 5) (λ _, 1)
                 (λ i, String.eqb i "3"))
              Fixture.env 2 tt (banner Fixture.env))
    as [[s' r]|] eqn:Hscan; [|discriminate Hruns].
  exists s', r. split; [reflexivity|].
  exact (proj1 (checks_follow_listing
                  (Fixture.host (Fixture.assets 5) (λ _, 1)
                     (λ i, String.eqb i "3"))
                  Fixture.env 2 tt s' r Hscan)).
Defined.

Lemma only_last_page_short_witness :
  ∃ s' r,
    findUnlinkedAssets
      (Fixture.host (Fixture.assets 250) (λ _, 1) (λ _, false))
      Fixture.env 4 tt (banner Fixture.env) = Some (s', r)
    ∧ ∃ init last,
        pagesFetched (trace s') = init ++ last
        ∧ Forall fullPage init
        ∧ (length last ≤ 1)%nat.
Proof.
  assert (Hruns :
    match findUnlinkedAssets
            (Fixture.host (Fixture.assets 250) (λ _, 1) (λ _, false))
            Fixture.env 4 tt (banner Fixture.env)
    with Some _ => true | None => false end = true)
    by (vm_compute; reflexivity).
  destruct (findUnlinkedAssets
              (Fixture.host (Fixture.assets 250) (λ _, 1) (λ _, false))
              Fixture.env 4 tt (banner Fixture.env))
    as [[s' r]|] eqn:Hscan; [|discriminate Hruns].
  exists s', r. split; [reflexivity|].
  exact (only_last_page_short
           (Fixture.host (Fixture.assets 250) (λ _, 1) (λ _, false))
           Fixture.env 4 tt s' r Hscan).
Defined.
